(** * Dashboard educativo: the filter-driven aggregation pipeline of [app.py]

    A shallow embedding of the data loading block (lines 14-40 of
    [src/app.py]) and of the [update_dashboard] callback (lines 130-215),
    followed by the properties of the pipeline.

    Conventions of the model.
    - A pandas [DataFrame] is a list of column labels and a list of rows;
      a row maps a label to a cell.  A label of the frame that a row does
      not bind reads as [NaN], as [pd.read_json] fills it.
    - A number is an exact rational ([Qc]), the exact value of the float64
      it stands for; infinities are left out.  The row sums of lines 29-31
      and the sums of the trend and age figures are taken exactly.  The
      quotient of line 141 is rounded to binary64 ([Float64.div]) before
      [round] sees it.  The sums of lines 139-142 and 182 and the sorts of
      line 182 are pandas' own ([Library]): their result depends on the
      summation order and on the sorting algorithm of the library, which
      the code does not choose.
    - A Python exception is a [Raise] in the [result] monad.
    - Plotly figures and Dash components are represented by the data they
      are built from (type [Content]); colours, titles and layout are left
      out.  The Pearson coefficient itself is pandas' [DataFrame.corr]; the
      correlation figure records the columns and the rows it is applied to. *)

From Stdlib Require Import ZArith QArith Qcanon Qround Qabs Qpower String Ascii List Sorted Permutation.
From stdpp Require Import gmap strings list fin_maps.

Open Scope Z_scope.

(** ** Numbers *)

Module Num.

Definition of_Z (z : Z) : Qc := Q2Qc (inject_Z z).

Definition leb (a b : Qc) : bool := Qle_bool a b.
Definition ltb (a b : Qc) : bool := negb (Qle_bool b a).

(** Python's [int(x)] on a float: truncation toward zero. *)
Definition int (q : Qc) : Z := Z.quot (Qnum q) (Zpos (Qden q)).

Definition is_integer (q : Qc) : bool := Pos.eqb (Qden q) 1.

(** Python's [round(x, 2)] on the exact value of a float: the nearest
    multiple of 1/100, a tie going to the even one. *)
Definition round_half_even (q : Q) : Z :=
  let f := Qfloor q in
  match Qcompare (q - inject_Z f) (1 # 2) with
  | Lt => f
  | Gt => f + 1
  | Eq => if Z.even f then f else f + 1
  end.

Definition round2 (q : Qc) : Qc :=
  Q2Qc (inject_Z (round_half_even (q * inject_Z 100)) / inject_Z 100).

(** [Series.sum()] of a numeric column. *)
Definition sum (l : list Qc) : Qc := fold_right Qcplus (Q2Qc 0) l.

End Num.

(** ** Binary64

    [round q] is the float64 nearest to [q], a tie going to the even
    significand; subnormals are kept, overflow is left out. *)

Module Float64.

(** [floor (log2 q)] for [q > 0]. *)
Definition ilog2 (q : Q) : Z :=
  let d := Z.log2 (Qnum q) - Z.log2 (Zpos (Qden q)) in
  if Qle_bool (Qpower 2 d) q then d else d - 1.

Definition round (q : Q) : Q :=
  match Qnum q with
  | 0 => 0%Q
  | _ => let e := Z.max (ilog2 (Qabs q) - 52) (-1074) in
         (inject_Z (Num.round_half_even (q / Qpower 2 e)) * Qpower 2 e)%Q
  end.

(** Python's [a / b] on two integers: the correctly rounded quotient. *)
Definition div (a b : Z) : Qc := Q2Qc (round (inject_Z a / inject_Z b)).

(** Float addition, and a sum taken from left to right. *)
Definition add (a b : Qc) : Qc := Q2Qc (round (a + b)).

Definition sum (l : list Qc) : Qc := fold_left add l (Q2Qc 0).

End Float64.

(** ** Exceptions *)

Inductive exn := KeyError (label : string) | TypeError | ValueError.

Inductive result (A : Type) := Ok (a : A) | Raise (e : exn).
Arguments Ok {A} a.
Arguments Raise {A} e.

(** Sequencing: the first exception ends the computation.  With this
    instance [x ← m; k] reads as the Python statement sequence. *)
#[global] Instance result_bind : MBind result :=
  fun A B (k : A -> result B) (m : result A) =>
    match m with Ok a => k a | Raise e => Raise e end.

(** ** Data frames *)

Inductive cell := NaN | Num (q : Qc) | Str (s : string).

Abbreviation Row := (gmap string cell).

Record DataFrame := { columns : list string; rows : list Row }.

(** [pd.DataFrame()] *)
Definition empty_frame : DataFrame := {| columns := []; rows := [] |}.

(** [d.empty]: some axis has length 0. *)
Definition empty (d : DataFrame) : bool :=
  match columns d, rows d with
  | _ :: _, _ :: _ => false
  | _, _ => true
  end.

(** [c in d.columns] *)
Definition has_column (d : DataFrame) (c : string) : bool :=
  bool_decide (c ∈ columns d).

Definition cell_at (c : string) (r : Row) : cell := default NaN (r !! c).

(** The value a numeric reduction sees: missing values are skipped. *)
Definition num_at (c : string) (r : Row) : Qc :=
  match cell_at c r with Num q => q | _ => Q2Qc 0 end.

(** [d[c]]; a label that is not a column raises [KeyError]. *)
Definition column (d : DataFrame) (c : string) : result (list cell) :=
  if has_column d c then Ok (map (cell_at c) (rows d)) else Raise (KeyError c).

(** [d[c].sum()] *)
Definition col_sum (d : DataFrame) (c : string) : Qc :=
  Num.sum (map (num_at c) (rows d)).

(** [d[c] = f(d[c])] for a column that exists; [d[c] = ...] for a new one
    appends the label. *)
Definition set_column (c : string) (f : Row -> cell) (d : DataFrame) : DataFrame :=
  {| columns := if has_column d c then columns d else columns d ++ [c];
     rows := map (fun r => <[c := f r]> r) (rows d) |}.

(** [d[mask]]: boolean indexing keeps the labels and the selected rows. *)
Definition select (p : Row -> bool) (d : DataFrame) : DataFrame :=
  {| columns := columns d; rows := List.filter p (rows d) |}.

(** ** Ordered grouping and sorting

    [groupby] is pandas' [DataFrame.groupby(key)] with its defaults
    [sort=True, dropna=True]: the groups come in ascending key order, a row
    whose key is missing belongs to no group, and every group keeps its
    rows in frame order. *)

Section GroupBy.
Context {K A : Type} (cmp : K -> K -> comparison).

Fixpoint add_to_group (k : K) (r : A) (g : list (K * list A)) : list (K * list A) :=
  match g with
  | [] => [(k, [r])]
  | (k', rs) :: g' =>
      match cmp k k' with
      | Lt => (k, [r]) :: g
      | Eq => (k', r :: rs) :: g'
      | Gt => (k', rs) :: add_to_group k r g'
      end
  end.

Definition groupby (key : A -> option K) (l : list A) : list (K * list A) :=
  fold_right (fun r g => match key r with
                         | Some k => add_to_group k r g
                         | None => g
                         end) [] l.

End GroupBy.

Section Sorting.
Context {A : Type} (le : A -> A -> bool).

(** A stable sort: [x] is placed before the first element it is not
    greater than, so elements that compare equal stay in input order. *)
Fixpoint insert_sorted (x : A) (l : list A) : list A :=
  match l with
  | [] => [x]
  | y :: l' => if le x y then x :: l else y :: insert_sorted x l'
  end.

Definition stable_sort (l : list A) : list A := fold_right insert_sorted [] l.

End Sorting.

(** [sorted(s.unique())] on values with a three-way comparison. *)
Fixpoint insert_unique {K : Type} (cmp : K -> K -> comparison) (k : K) (l : list K) : list K :=
  match l with
  | [] => [k]
  | k' :: l' =>
      match cmp k k' with
      | Lt => k :: l
      | Eq => l
      | Gt => k' :: insert_unique cmp k l'
      end
  end.

Definition sorted_unique {K : Type} (cmp : K -> K -> comparison) (l : list K) : list K :=
  fold_right (insert_unique cmp) [] l.

(** ** Typed readings of the two key columns *)

(** The department of a row: the text in [departamento].  The column is
    textual in the data set; a missing value gives no department. *)
Definition departamento (r : Row) : option string :=
  match cell_at "departamento" r with Str s => Some s | _ => None end.

(** The year of a row: [anno_inf] is a nullable [Int64] column once
    loaded, so a value is an integer or missing. *)
Definition anno_inf (r : Row) : option Z :=
  match cell_at "anno_inf" r with
  | Num q => if Num.is_integer q then Some (Qnum q) else None
  | _ => None
  end.

(** ** Loading (lines 14-40) *)

Record Dataset := {
  df : DataFrame;
  col_tasa : list string;
  col_ipg : list string;
  years : list Z;
  depts : list string
}.

(** [except Exception]: an empty frame and empty catalogues.  The column
    lists are not read by the callback on an empty frame. *)
Definition failed_load : Dataset :=
  {| df := empty_frame; col_tasa := []; col_ipg := []; years := []; depts := [] |}.

Definition startswith (p : string) (c : string) : bool := String.prefix p c.

Section Load.

(** The number grammar of [pd.to_numeric]: [parse s] is the value of the
    text [s], or [None] when [s] is not a number. *)
Variable parse : string -> option Qc.

(** [pd.to_numeric(x, errors="coerce")] on one cell. *)
Definition to_numeric (x : cell) : cell :=
  match x with
  | NaN => NaN
  | Num q => Num q
  | Str s => match parse s with Some q => Num q | None => NaN end
  end.

(** [.fillna(0)] *)
Definition fillna0 (x : cell) : cell :=
  match x with NaN => Num (Q2Qc 0) | _ => x end.

(** Line 24, for one column. *)
Definition coerce_column (d : DataFrame) (c : string) : DataFrame :=
  set_column c (fun r => fillna0 (to_numeric (cell_at c r))) d.

(** Line 27: [.astype("Int64")] refuses a value that is not integral. *)
Definition coerce_year (d : DataFrame) : result DataFrame :=
  if forallb (fun r => match to_numeric (cell_at "anno_inf" r) with
                       | Num q => Num.is_integer q
                       | _ => true
                       end) (rows d)
  then Ok (set_column "anno_inf" (fun r => to_numeric (cell_at "anno_inf" r)) d)
  else Raise TypeError.

(** [df[cs].sum(axis=1)] *)
Definition row_sum (cs : list string) (r : Row) : Qc :=
  Num.sum (map (fun c => num_at c r) cs).

(** The body of the [try] block, from line 18 on; [raw] is the frame as
    read, its labels stripped. *)
Definition process (raw : DataFrame) : result Dataset :=
  let col_fem := List.filter (startswith "matriculacion_fem") (columns raw) in
  let col_masc := List.filter (startswith "matriculacion_masc") (columns raw) in
  let col_tasa := List.filter (startswith "tasa") (columns raw) in
  let col_ipg := List.filter (startswith "ipg") (columns raw) in
  let d := fold_left coerce_column (col_fem ++ col_masc ++ col_tasa ++ col_ipg) raw in
  d ← (if has_column d "anno_inf" then coerce_year d else Ok d);
  let d := set_column "TOTAL_FEM" (fun r => Num (row_sum col_fem r)) d in
  let d := set_column "TOTAL_MASC" (fun r => Num (row_sum col_masc r)) d in
  let d := set_column "TOTAL"
             (fun r => Num (num_at "TOTAL_FEM" r + num_at "TOTAL_MASC" r)%Qc) d in
  let years := if has_column d "anno_inf"
               then sorted_unique Z.compare (omap anno_inf (rows d)) else [] in
  _ ← column d "departamento";
  let depts := sorted_unique String.compare (omap departamento (rows d)) in
  Ok {| df := d; col_tasa := col_tasa; col_ipg := col_ipg;
        years := years; depts := depts |}.

(** The whole block: [src] is [None] when [pd.read_json] raises. *)
Definition load (src : option DataFrame) : Dataset :=
  match src with
  | None => failed_load
  | Some raw => match process raw with Ok s => s | Raise _ => failed_load end
  end.

End Load.

(** ** The callback [update_dashboard] (lines 130-215) *)

Definition age_groups : list (string * string * string) :=
  [ ("3y4", "matriculacion_fem_3y4", "matriculacion_masc_3y4");
    ("5", "matriculacion_fem_5", "matriculacion_masc_5");
    ("6a10", "matriculacion_fem_6a10", "matriculacion_masc_6a10");
    ("11a14", "matriculacion_fem_11a14", "matriculacion_masc_11a14");
    ("15y16", "matriculacion_fem_15y16", "matriculacion_masc_15y16") ].

(** *** Filters (lines 134-137) *)

(** Lines 134-135.  [if filtro_ano:] is Python truthiness: [None] and [0]
    both skip the filter.  A missing year never equals the selected one. *)
Definition filter_year (filtro_ano : option Z) (d : DataFrame) : result DataFrame :=
  match filtro_ano with
  | None => Ok d
  | Some y =>
      if Z.eqb y 0 then Ok d
      else _ ← column d "anno_inf";
           Ok (select (fun r => bool_decide (anno_inf r = Some y)) d)
  end.

(** [d["departamento"].isin(filtro_dep)] on one row. *)
Definition dept_isin (l : list string) (r : Row) : bool :=
  match departamento r with
  | Some s => bool_decide (s ∈ l)
  | None => false
  end.

(** Lines 136-137.  [None] and the empty list both skip the filter. *)
Definition filter_dep (filtro_dep : option (list string)) (d : DataFrame) : result DataFrame :=
  match filtro_dep with
  | Some (x :: l) =>
      _ ← column d "departamento";
      Ok (select (dept_isin (x :: l)) d)
  | _ => Ok d
  end.

(** *** The pandas operations the callback leaves to the library

    [fsum] is [Series.sum()] on a float64 column: a float64 sum in the
    order pandas chooses.  [sort_by asc] is
    [Series.sort_values(ascending=asc)] with the default [kind], a sort
    that pandas does not promise to be stable. *)
Record Library := {
  fsum : list Qc -> Qc;
  sort_by : bool -> list (string * Qc) -> list (string * Qc)
}.

(** *** KPI summary (lines 139-142) *)

Record KPI := { tf : Z; tm : Z; ipg : Qc; top_dep : string }.

(** [d.groupby("departamento")["TOTAL"].sum()]: a series indexed by
    department, in ascending department order. *)
Definition dept_totals (pd : Library) (d : DataFrame) : list (string * Qc) :=
  map (fun g => (fst g, fsum pd (map (num_at "TOTAL") (snd g))))
      (groupby String.compare departamento (rows d)).

(** [Series.idxmax()]: the label of the first occurrence of the maximum;
    [ValueError] on an empty series. *)
Fixpoint argmax_from {K : Type} (best : K * Qc) (s : list (K * Qc)) : K :=
  match s with
  | [] => fst best
  | kv :: s' => argmax_from (if Num.ltb (snd best) (snd kv) then kv else best) s'
  end.

Definition idxmax {K : Type} (s : list (K * Qc)) : result K :=
  match s with
  | [] => Raise ValueError
  | kv :: s' => Ok (argmax_from kv s')
  end.

Definition kpi_summary (pd : Library) (d : DataFrame) : result KPI :=
  _ ← column d "TOTAL_FEM";
  let tf := Num.int (fsum pd (map (num_at "TOTAL_FEM") (rows d))) in
  _ ← column d "TOTAL_MASC";
  let tm := Num.int (fsum pd (map (num_at "TOTAL_MASC") (rows d))) in
  let ipg := if 0 <? tm then Num.round2 (Float64.div tf tm) else Q2Qc 0 in
  top_dep ← (if negb (empty d)
             then _ ← column d "departamento";
                  _ ← column d "TOTAL";
                  idxmax (dept_totals pd d)
             else Ok "-");
  Ok {| tf := tf; tm := tm; ipg := ipg; top_dep := top_dep |}.

(** The four cards of lines 150-155; the value of a card is kept as the
    value that the f-string formats. *)
Inductive card_value := KInt (z : Z) | KNum (q : Qc) | KText (s : string).

Definition kpis (k : KPI) : list (string * card_value) :=
  [ ("Matrícula Femenina", KInt (tf k));
    ("Matrícula Masculina", KInt (tm k));
    ("Índice de Paridad", KNum (ipg k));
    ("Top Departamento", KText (top_dep k)) ].

(** *** Tab contents (lines 167-213) *)

Record Trace := { name : string; x : list string; y : list Qc }.

Inductive Content :=
| NoData
| Trend (series : list (Z * (Qc * Qc * Qc)))
| NoYear
| Ranking (bars : list (string * Qc))
| AgeSplit (traces : list Trace)
| Correlation (cols : list string) (data : list (list cell))
| Insufficient.

(** Line 171: [d.groupby("anno_inf")[["TOTAL_FEM","TOTAL_MASC","TOTAL"]].sum()] *)
Definition trend (d : DataFrame) : list (Z * (Qc * Qc * Qc)) :=
  map (fun g => (fst g, (Num.sum (map (num_at "TOTAL_FEM") (snd g)),
                         Num.sum (map (num_at "TOTAL_MASC") (snd g)),
                         Num.sum (map (num_at "TOTAL") (snd g)))))
      (groupby Z.compare anno_inf (rows d)).

(** Lines 169-179. *)
Definition tab_trend (d : DataFrame) : result Content :=
  if has_column d "anno_inf"
  then _ ← column d "TOTAL_FEM";
       _ ← column d "TOTAL_MASC";
       _ ← column d "TOTAL";
       Ok (Trend (trend d))
  else Ok NoYear.

(** The two comparisons of line 182. *)
Definition by_total_desc (a b : string * Qc) : bool := Num.leb (snd b) (snd a).
Definition by_total_asc (a b : string * Qc) : bool := Num.leb (snd a) (snd b).

(** [Series.nlargest(n)] with [keep="first"].  A series of at most [n]
    entries is returned as [sort_values(ascending=False).head(n)]; a longer
    one is cut to the [n] greatest values, equal values in index order. *)
Definition nlargest (pd : Library) (n : nat) (s : list (string * Qc))
  : list (string * Qc) :=
  if (length s <=? n)%nat then take n (sort_by pd false s)
  else take n (stable_sort by_total_desc s).

(** Line 182; the last step is [sort_values("TOTAL", ascending=True)]. *)
Definition top_df (pd : Library) (d : DataFrame) : list (string * Qc) :=
  sort_by pd true (nlargest pd 15 (dept_totals pd d)).

(** Lines 181-187. *)
Definition tab_dept (pd : Library) (d : DataFrame) : result Content :=
  _ ← column d "departamento";
  _ ← column d "TOTAL";
  Ok (Ranking (top_df pd d)).

(** Lines 190-193: one entry per age group, [(Grupo, Fem, Masc)]. *)
Definition sp (d : DataFrame) : list (string * Qc * Qc) :=
  map (fun a => match a with
                | (g, f, m) =>
                    (g, if has_column d f then col_sum d f else Q2Qc 0,
                        if has_column d m then col_sum d m else Q2Qc 0)
                end) age_groups.

(** Lines 195-199: the traces added to the figure, in order. *)
Definition age_traces (d : DataFrame) (filtro_genero : string) : list Trace :=
  let sdf := sp d in
  (if bool_decide (filtro_genero ∈ ["both"; "fem"])
   then [ {| name := "Femenino"; x := map (fun e => fst (fst e)) sdf;
             y := map (fun e => snd (fst e)) sdf |} ]
   else [])
  ++
  (if bool_decide (filtro_genero ∈ ["both"; "masc"])
   then [ {| name := "Masculino"; x := map (fun e => fst (fst e)) sdf;
             y := map (fun e => snd e) sdf |} ]
   else []).

(** Lines 189-202. *)
Definition tab_age (d : DataFrame) (filtro_genero : string) : Content :=
  AgeSplit (age_traces d filtro_genero).

(** Lines 205-206. *)
Definition cols (s : Dataset) (d : DataFrame) : list string :=
  List.filter (has_column d)
    (["TOTAL"; "TOTAL_FEM"; "TOTAL_MASC"] ++ take 3 (col_tasa s) ++ take 3 (col_ipg s)).

(** Lines 204-213.  [Correlation cs rows] stands for [d[cs].corr()]. *)
Definition tab_corr (s : Dataset) (d : DataFrame) : Content :=
  let cs := cols s d in
  if (1 <? length cs)%nat
  then Correlation cs (map (fun r => map (fun c => cell_at c r) cs) (rows d))
  else Insufficient.

(** The [if / elif / else] chain of lines 169-213. *)
Definition content (pd : Library) (s : Dataset) (active_tab filtro_genero : string)
    (d : DataFrame) : result Content :=
  if bool_decide (active_tab = "tab_trend") then tab_trend d
  else if bool_decide (active_tab = "tab_dept") then tab_dept pd d
  else if bool_decide (active_tab = "tab_age") then Ok (tab_age d filtro_genero)
  else Ok (tab_corr s d).

(** Lines 133-137. *)
Definition filtered (filtro_ano : option Z) (filtro_dep : option (list string))
    (d : DataFrame) : result DataFrame :=
  d ← filter_year filtro_ano d;
  filter_dep filtro_dep d.

Definition update_dashboard (pd : Library) (s : Dataset) (filtro_ano : option Z)
    (filtro_dep : option (list string)) (filtro_genero active_tab : string)
  : result (list (string * card_value) * Content) :=
  if empty (df s) then Ok ([], NoData)
  else
    d ← filtered filtro_ano filtro_dep (df s);
    k ← kpi_summary pd d;
    c ← content pd s active_tab filtro_genero d;
    Ok (kpis k, c).

(** ** A concrete source for the examples

    [parse_int] reads an optional sign followed by decimal digits, the
    plain integer literals on which every number parser agrees. *)

Definition digit (a : ascii) : option Z :=
  let n := Z.of_N (N_of_ascii a) in
  if (48 <=? n) && (n <=? 57) then Some (n - 48) else None.

Fixpoint digits (acc : Z) (s : string) : option Z :=
  match s with
  | EmptyString => Some acc
  | String a s' => match digit a with
                   | Some v => digits (10 * acc + v) s'
                   | None => None
                   end
  end.

Definition parse_int (s : string) : option Qc :=
  match s with
  | EmptyString => None
  | String "-" (String a s') => option_map (fun z => Num.of_Z (- z)) (digits 0 (String a s'))
  | _ => option_map Num.of_Z (digits 0 s)
  end.

Definition raw_row (year : cell) (dept : cell) (fem masc : cell) : Row :=
  <["anno_inf" := year]> (<["departamento" := dept]>
    (<["matriculacion_fem_5" := fem]> (<["matriculacion_masc_5" := masc]> ∅))).

Definition raw_columns : list string :=
  ["anno_inf"; "departamento"; "matriculacion_fem_5"; "matriculacion_masc_5"].

(** The three records of the worked example: department A in 2020 and
    2021, department B in 2020. *)
Definition raw_example : DataFrame :=
  {| columns := raw_columns;
     rows := [ raw_row (Str "2020") (Str "A") (Str "10") (Str "5");
               raw_row (Str "2021") (Str "A") (Str "0") (Str "0");
               raw_row (Str "2020") (Str "B") (Str "2") (Str "8") ] |}.

Definition example : Dataset := load parse_int (Some raw_example).

(** ** Vocabulary of the statements *)

(** The columns every loaded frame has (lines 29-31 and 34). *)
Definition well_formed (d : DataFrame) : Prop :=
  has_column d "departamento" = true /\ has_column d "TOTAL_FEM" = true /\
  has_column d "TOTAL_MASC" = true /\ has_column d "TOTAL" = true.

(** What each filter lets through, row by row. *)
Definition year_passes (filtro_ano : option Z) (r : Row) : bool :=
  match filtro_ano with
  | Some y => (y =? 0) || bool_decide (anno_inf r = Some y)
  | None => true
  end.

Definition dept_passes (filtro_dep : option (list string)) (r : Row) : bool :=
  match filtro_dep with
  | Some (x :: l) => dept_isin (x :: l) r
  | _ => true
  end.

(** Vocabulary for grouped frames: the order of two groups is the order
    of their keys; [above k g] says that [k] precedes every key of [g]. *)
Definition key_lt {K A : Type} (cmp : K -> K -> comparison) (g h : K * list A) : Prop :=
  cmp (fst g) (fst h) = Lt.

Definition above {K A : Type} (cmp : K -> K -> comparison) (k : K)
    (g : list (K * list A)) : Prop :=
  Forall (fun h => cmp k (fst h) = Lt) g.

(** The rows filed under [k] in a grouped frame. *)
Fixpoint group_of {K A : Type} `{EqDecision K} (k : K) (g : list (K * list A)) : list A :=
  match g with
  | [] => []
  | h :: g' => if decide (k = fst h) then snd h else group_of k g'
  end.

(** The rows of [l] whose key is [k], in the order of [l]. *)
Definition keyed {K A : Type} `{EqDecision K} (key : A -> option K) (k : K)
    (l : list A) : list A :=
  List.filter (fun r => bool_decide (key r = Some k)) l.

(** The rows of one department, of one year. *)
Definition of_dept (k : string) (d : DataFrame) : list Row := keyed departamento k (rows d).

Definition of_year (y : Z) (d : DataFrame) : list Row := keyed anno_inf y (rows d).

(** The summed [c] of a list of rows. *)
Definition total_of (c : string) (l : list Row) : Qc := Num.sum (map (num_at c) l).

(** The [TOTAL] of one department over a view, summed by the library. *)
Definition series_total (pd : Library) (d : DataFrame) (k : string) : Qc :=
  fsum pd (map (num_at "TOTAL") (of_dept k d)).

(** A series in ascending label order. *)
Definition by_label {V : Type} (a b : string * V) : Prop :=
  String.compare (fst a) (fst b) = Lt.

(** When the year filter fails: a year is selected and the frame has no
    year column. *)
Definition year_raises (filtro_ano : option Z) (d : DataFrame) : bool :=
  match filtro_ano with
  | Some v => negb (v =? 0) && negb (has_column d "anno_inf")
  | None => false
  end.

(** A source with three rate columns and three parity-index columns. *)
Definition raw_rates : DataFrame :=
  {| columns := ["departamento"; "matriculacion_fem_5"; "matriculacion_masc_5";
                 "tasa_a"; "tasa_b"; "tasa_c"; "ipg_a"; "ipg_b"; "ipg_c"];
     rows := [ <["departamento" := Str "A"]> (<["matriculacion_fem_5" := Str "7"]>
                 (<["tasa_a" := Str "1"]> (<["ipg_a" := Str "2"]> ∅))) ] |}.

Definition example_rates : Dataset := load parse_int (Some raw_rates).

(** The labels and columns of the age figure. *)
Definition age_labels : list string := map (fun a => fst (fst a)) age_groups.
Definition age_fem_columns : list string := map (fun a => snd (fst a)) age_groups.
Definition age_masc_columns : list string := map (fun a => snd a) age_groups.

(** [d[c].sum() if c in d else 0] *)
Definition sum_if_present (d : DataFrame) (c : string) : Qc :=
  if has_column d c then col_sum d c else Q2Qc 0.

(** [k] is the top department of a view: it has rows there, no department
    has a greater summed total, and it is the first in department order
    among those with the same total. *)
Definition is_top_department (pd : Library) (d : DataFrame) (k : string) : Prop :=
  of_dept k d <> [] /\
  Forall (fun r => match departamento r with
                   | Some k' => (series_total pd d k' <= series_total pd d k)%Qc /\
                                (series_total pd d k' = series_total pd d k ->
                                 String.compare k' k <> Lt)
                   | None => True
                   end) (rows d).

(** A source whose counts are not whole numbers: 2.5 and 0.5. *)
Definition raw_fractions : DataFrame :=
  {| columns := raw_columns;
     rows := [ raw_row (Num (Num.of_Z 2020)) (Str "A")
                 (Num (Q2Qc (5 # 2))) (Num (Q2Qc (1 # 2))) ] |}.

Definition example_fractions : Dataset := load parse_int (Some raw_fractions).

(** A series in ascending year order. *)
Definition by_year {V : Type} (a b : Z * V) : Prop := fst a < fst b.

(** The three sums the trend shows for the year [y]. *)
Definition year_totals (d : DataFrame) (y : Z) : Qc * Qc * Qc :=
  (total_of "TOTAL_FEM" (of_year y d), total_of "TOTAL_MASC" (of_year y d),
   total_of "TOTAL" (of_year y d)).

(** A source that has the year column but no readable year in it. *)
Definition raw_no_years : DataFrame :=
  {| columns := raw_columns;
     rows := [ raw_row (Str "n/a") (Str "A") (Str "10") (Str "5");
               raw_row NaN (Str "B") (Str "2") (Str "8") ] |}.

Definition example_no_years : Dataset := load parse_int (Some raw_no_years).

(** The order the claim gives the ranking: ascending total, equal totals
    in ascending department order. *)
Definition ranking_order (a b : string * Qc) : Prop :=
  (snd a < snd b)%Qc \/ (snd a = snd b /\ String.compare (fst a) (fst b) = Lt).

(** [a] ranks above [b]: a greater total, or the same total and an
    earlier department. *)
Definition outranks (a b : string * Qc) : Prop :=
  (snd b < snd a)%Qc \/ (snd b = snd a /\ String.compare (fst a) (fst b) = Lt).

(** The order a stable sort by [le] gives to an input ordered by [S]. *)
Definition stable_order {A : Type} (le : A -> A -> bool) (S : A -> A -> Prop)
    (a b : A) : Prop :=
  le a b = true /\ (le b a = true -> S a b).

(** What is known of the library whatever its version.  A float64 sum is
    exact, in any order, when the summands are whole numbers whose
    magnitudes add up to less than 2^53; a sort returns its input
    rearranged in the order asked for. *)
Definition abs_total (l : list Qc) : Z :=
  fold_right Z.add 0 (map (fun q : Qc => Z.abs (Qnum q)) l).

Definition whole (l : list Qc) : bool :=
  forallb Num.is_integer l && (abs_total l <? 2 ^ 53).

Definition exact_on_whole (f : list Qc -> Qc) : Prop :=
  forall l, whole l = true -> f l = Num.sum l.

Definition sorted_as (asc : bool) (a b : string * Qc) : Prop :=
  if asc then (snd a <= snd b)%Qc else (snd b <= snd a)%Qc.

Definition sorts (sort : bool -> list (string * Qc) -> list (string * Qc)) : Prop :=
  forall asc l, Permutation (sort asc l) l /\ StronglySorted (sorted_as asc) (sort asc l).

(** Two libraries for the examples.  Both sum from left to right in
    float64.  [numpy] sorts stably; the ascending sort of [reversing]
    leaves equal values in the reverse of their input order. *)
Definition numpy : Library :=
  {| fsum := Float64.sum;
     sort_by := fun asc => stable_sort (if asc then by_total_asc else by_total_desc) |}.

Definition reversing : Library :=
  {| fsum := Float64.sum;
     sort_by := fun asc l =>
       if asc then rev (stable_sort by_total_desc l)
       else stable_sort by_total_desc l |}.

(** Two departments with the same total. *)
Definition raw_ties : DataFrame :=
  {| columns := raw_columns;
     rows := [ raw_row (Str "2020") (Str "A") (Str "3") (Str "2");
               raw_row (Str "2020") (Str "B") (Str "1") (Str "4") ] |}.

Definition example_ties : Dataset := load parse_int (Some raw_ties).

(** A source whose only record has no department. *)
Definition raw_no_dept : DataFrame :=
  {| columns := raw_columns;
     rows := [ raw_row (Str "2020") NaN (Str "10") (Str "5") ] |}.

Definition example_no_dept : Dataset := load parse_int (Some raw_no_dept).

(** The column lists of lines 18-21 and the columns line 23 coerces. *)
Definition col_fem (raw : DataFrame) : list string :=
  List.filter (startswith "matriculacion_fem") (columns raw).
Definition col_masc (raw : DataFrame) : list string :=
  List.filter (startswith "matriculacion_masc") (columns raw).
Definition numeric_columns (raw : DataFrame) : list string :=
  col_fem raw ++ col_masc raw ++
  List.filter (startswith "tasa") (columns raw) ++
  List.filter (startswith "ipg") (columns raw).

(** Line 24 on one cell, and the loop of lines 23-24 on one row. *)
Definition coerced (parse : string -> option Qc) (x : cell) : cell :=
  fillna0 (to_numeric parse x).

Definition coerce_row (parse : string -> option Qc) (cs : list string) (r : Row) : Row :=
  fold_left (fun r c => <[c := coerced parse (cell_at c r)]> r) cs r.

(** Lines 29-31 on one row. *)
Definition add_totals (fem masc : list string) (r : Row) : Row :=
  let r := <["TOTAL_FEM" := Num (row_sum fem r)]> r in
  let r := <["TOTAL_MASC" := Num (row_sum masc r)]> r in
  <["TOTAL" := Num (num_at "TOTAL_FEM" r + num_at "TOTAL_MASC" r)%Qc]> r.

(** A source with a negative count. *)
Definition raw_negative : DataFrame :=
  {| columns := raw_columns;
     rows := [ raw_row (Str "2020") (Str "A") (Str "-5") (Str "3") ] |}.

Definition example_negative : Dataset := load parse_int (Some raw_negative).

(** A source with text where numbers are expected. *)
Definition raw_malformed : DataFrame :=
  {| columns := raw_columns;
     rows := [ raw_row (Str "2020") (Str "A") (Str "12x") NaN ] |}.

Definition example_malformed : Dataset := load parse_int (Some raw_malformed).

(** ** The sidebar callback (lines 122-123)

    [current] is the [className] of the sidebar: a string, or [None]
    before the property has been set. *)
Definition toggle_menu (n : option Z) (current : option string) : string :=
  if bool_decide (current = Some "open") then "" else "open".

(** The view the callback aggregates: the rows that pass both filters. *)
Definition view (filtro_ano : option Z) (filtro_dep : option (list string))
    (d : DataFrame) : DataFrame :=
  select (fun r => year_passes filtro_ano r && dept_passes filtro_dep r) d.

(** A source without the department column. *)
Definition raw_no_dept_column : DataFrame :=
  {| columns := ["anno_inf"; "matriculacion_fem_5"];
     rows := [ <["anno_inf" := Str "2020"]> (<["matriculacion_fem_5" := Str "1"]> ∅) ] |}.

(** * Properties *)

(** ** Frames and filters *)

Lemma select_columns p d : columns (select p d) = columns d.
Proof. reflexivity. Qed.

Lemma has_column_select p d c : has_column (select p d) c = has_column d c.
Proof. reflexivity. Qed.

Lemma column_select_ok p d c xs :
  column d c = Ok xs -> exists ys, column (select p d) c = Ok ys.
Proof.
  unfold column. rewrite has_column_select.
  destruct (has_column d c); [eauto | discriminate].
Qed.

Lemma filter_comm {A} (p q : A -> bool) (l : list A) :
  List.filter p (List.filter q l) = List.filter q (List.filter p l).
Proof.
  induction l as [|a l IH]; simpl; [reflexivity|].
  destruct (q a) eqn:Hq, (p a) eqn:Hp; simpl; rewrite ?Hq, ?Hp, IH; reflexivity.
Qed.

Lemma filter_andb {A} (p q : A -> bool) (l : list A) :
  List.filter q (List.filter p l) = List.filter (fun a => p a && q a) l.
Proof.
  induction l as [|a l IH]; simpl; [reflexivity|].
  destruct (p a) eqn:Hp; simpl; [destruct (q a)|]; rewrite IH; reflexivity.
Qed.

Lemma filter_true {A} (l : list A) : List.filter (fun _ => true) l = l.
Proof. induction l; simpl; congruence. Qed.

Lemma select_select p q d : select q (select p d) = select (fun r => p r && q r) d.
Proof. unfold select; simpl. f_equal. apply filter_andb. Qed.

Lemma select_comm p q d : select p (select q d) = select q (select p d).
Proof. unfold select; simpl. f_equal. apply filter_comm. Qed.

Lemma select_ext p q d : (forall r, p r = q r) -> select p d = select q d.
Proof. intros H. unfold select. f_equal. apply filter_ext, H. Qed.

Lemma select_all p d : (forall r, p r = true) -> select p d = d.
Proof.
  intros H. rewrite (select_ext p (fun _ => true)) by exact H.
  unfold select. rewrite filter_true. destruct d; reflexivity.
Qed.

Lemma filter_year_spec y d :
  filter_year y d = if year_raises y d then Raise (KeyError "anno_inf")
                    else Ok (select (year_passes y) d).
Proof.
  destruct y as [v|]; simpl; [|rewrite select_all; reflexivity].
  destruct (v =? 0) eqn:Hv; simpl.
  - rewrite select_all; [reflexivity|]. intros r; simpl. rewrite Hv. reflexivity.
  - unfold column. destruct (has_column d "anno_inf"); simpl; [|reflexivity].
    f_equal. apply select_ext. intros r; simpl. rewrite Hv. reflexivity.
Qed.

Lemma filter_dep_spec deps d :
  has_column d "departamento" = true ->
  filter_dep deps d = Ok (select (dept_passes deps) d).
Proof.
  intros Hd.
  destruct deps as [[|x l]|]; simpl; try (rewrite select_all; reflexivity).
  unfold column. rewrite Hd. reflexivity.
Qed.

(** C3: with an empty department selection (the empty list the dropdown
    starts with, or no value at all) the filtered view is the data set
    restricted by the year filter alone: no department is excluded. *)
Theorem empty_department_set_no_restriction (filtro_ano : option Z) (d : DataFrame) :
  filtered filtro_ano (Some []) d = filter_year filtro_ano d /\
  filtered filtro_ano None d = filter_year filtro_ano d /\
  filter_dep (Some []) d = Ok d.
Proof.
  unfold filtered. split; [|split]; try reflexivity;
    destruct (filter_year filtro_ano d); reflexivity.
Qed.

(** C4: on a frame that has the department column, the year filter
    followed by the department filter gives the same result as the
    department filter followed by the year filter, and that result keeps
    exactly the rows that pass both filters (logical AND); the only
    failure, in either order, is a year selected on a frame without a year
    column. *)
Theorem filters_commute (filtro_ano : option Z) (filtro_dep : option (list string))
    (d : DataFrame) :
  has_column d "departamento" = true ->
  (d' ← filter_year filtro_ano d; filter_dep filtro_dep d') =
  (d' ← filter_dep filtro_dep d; filter_year filtro_ano d') /\
  match filtered filtro_ano filtro_dep d with
  | Ok d' => columns d' = columns d /\
             rows d' = List.filter (fun r => year_passes filtro_ano r && dept_passes filtro_dep r) (rows d)
  | Raise e => e = KeyError "anno_inf" /\ has_column d "anno_inf" = false
  end.
Proof.
  intros Hdep. unfold filtered.
  rewrite (filter_dep_spec filtro_dep d Hdep), (filter_year_spec filtro_ano d).
  simpl. rewrite filter_year_spec.
  change (year_raises filtro_ano (select (dept_passes filtro_dep) d))
    with (year_raises filtro_ano d).
  destruct (year_raises filtro_ano d) eqn:Hr; simpl.
  - split; [reflexivity|]. split; [reflexivity|].
    destruct filtro_ano as [v|]; simpl in Hr; [|discriminate].
    destruct (has_column d "anno_inf"); [|reflexivity].
    rewrite andb_false_r in Hr. discriminate.
  - rewrite filter_dep_spec by (rewrite has_column_select; exact Hdep).
    split; [f_equal; apply select_comm|].
    simpl. split; [reflexivity|]. apply filter_andb.
Qed.

Lemma filters_commute_witness :
  has_column (df example) "departamento" = true /\
  (d' ← filter_year (Some 2020) (df example); filter_dep (Some ["A"]) d') =
  (d' ← filter_dep (Some ["A"]) (df example); filter_year (Some 2020) d').
Proof.
  split; [reflexivity|].
  apply (filters_commute (Some 2020) (Some ["A"]) (df example)). reflexivity.
Defined.

(** ** Load failure *)

(** C8: when the read fails, or processing the frame raises, the loader
    yields the empty frame with empty year and department catalogues and
    raises nothing itself; on that data set the callback, whatever the
    filters and the tab, returns no cards and the "no data" notice. *)
Theorem load_failure_fails_closed (parse : string -> option Qc) :
  load parse None = failed_load /\
  (forall raw, match process parse raw with
               | Ok s => load parse (Some raw) = s
               | Raise _ => load parse (Some raw) = failed_load
               end) /\
  (df failed_load = empty_frame /\ years failed_load = [] /\ depts failed_load = []) /\
  (forall pd filtro_ano filtro_dep filtro_genero active_tab,
     update_dashboard pd failed_load filtro_ano filtro_dep filtro_genero active_tab
     = Ok ([], NoData)).
Proof.
  split; [reflexivity|]. split.
  - intros raw. unfold load. destruct (process parse raw); reflexivity.
  - split; [repeat split|]. intros. reflexivity.
Qed.

(** ** Age brackets *)

Lemma sp_labels d : map (fun e => fst (fst e)) (sp d) = age_labels.
Proof. reflexivity. Qed.

Lemma sp_fem d : map (fun e => snd (fst e)) (sp d) = map (sum_if_present d) age_fem_columns.
Proof. reflexivity. Qed.

Lemma sp_masc d : map (fun e => snd e) (sp d) = map (sum_if_present d) age_masc_columns.
Proof. reflexivity. Qed.


(** ** Tab dispatch and the correlation view *)

Lemma filter_length_le {A} (p : A -> bool) (l : list A) :
  (length (List.filter p l) <= length l)%nat.
Proof. induction l as [|a l IH]; simpl; [lia|]. destruct (p a); simpl; lia. Qed.

Lemma cols_split s d :
  cols s d = List.filter (has_column d) ["TOTAL"; "TOTAL_FEM"; "TOTAL_MASC"] ++
             List.filter (has_column d) (take 3 (col_tasa s)) ++
             List.filter (has_column d) (take 3 (col_ipg s)).
Proof. unfold cols. rewrite !List.filter_app. reflexivity. Qed.

(** C7 as the code has it: the correlation view takes the three total
    columns, then the first three rate columns, then the first three
    parity-index columns, keeping those the view has: at most 3 + 3 + 3 = 9
    columns.  With two or more columns the figure is the correlation of
    exactly these columns over every row of the view; with fewer than two
    it is the "insufficient data" notice, never a matrix. *)
Theorem correlation_columns (s : Dataset) (d : DataFrame) :
  cols s d = List.filter (has_column d) ["TOTAL"; "TOTAL_FEM"; "TOTAL_MASC"] ++
             List.filter (has_column d) (take 3 (col_tasa s)) ++
             List.filter (has_column d) (take 3 (col_ipg s)) /\
  (length (List.filter (has_column d) (take 3 (col_tasa s))) <= 3)%nat /\
  (length (List.filter (has_column d) (take 3 (col_ipg s))) <= 3)%nat /\
  (length (cols s d) <= 9)%nat /\
  match tab_corr s d with
  | Correlation cs data =>
      cs = cols s d /\ (2 <= length cs)%nat /\
      data = map (fun r => map (fun c => cell_at c r) cs) (rows d) /\
      length data = length (rows d) /\
      Forall (fun row => length row = length cs) data
  | Insufficient => (length (cols s d) < 2)%nat
  | _ => False
  end.
Proof.
  assert (H3 : forall l : list string,
             (length (List.filter (has_column d) (take 3 l)) <= 3)%nat).
  { intros l. etransitivity; [apply filter_length_le|].
    rewrite length_take. lia. }
  split; [apply cols_split|]. split; [apply H3|]. split; [apply H3|]. split.
  - rewrite cols_split, !length_app.
    pose proof (H3 (col_tasa s)). pose proof (H3 (col_ipg s)).
    pose proof (filter_length_le (has_column d) ["TOTAL"; "TOTAL_FEM"; "TOTAL_MASC"]).
    simpl in *. lia.
  - unfold tab_corr. destruct (1 <? length (cols s d))%nat eqn:Hl.
    + apply Nat.ltb_lt in Hl. split; [reflexivity|]. split; [lia|].
      split; [reflexivity|]. split; [apply length_map|].
      apply List.Forall_forall. intros row Hrow. apply in_map_iff in Hrow.
      destruct Hrow as [r [<- _]]. apply length_map.
    + apply Nat.ltb_ge in Hl. lia.
Qed.

(** C7 as stated fails: with three rate columns and three parity-index
    columns the correlation view has nine columns, not eight. *)
Lemma correlation_nine_columns :
  cols example_rates (df example_rates) =
    ["TOTAL"; "TOTAL_FEM"; "TOTAL_MASC"; "tasa_a"; "tasa_b"; "tasa_c";
     "ipg_a"; "ipg_b"; "ipg_c"] /\
  ~ (length (cols example_rates (df example_rates)) <= 8)%nat.
Proof. split; [vm_compute; reflexivity|]. vm_compute. lia. Qed.

(** C10 fails on the code: the data set loaded from a source whose only
    record has no department is not empty, and on it the callback raises
    [ValueError] for the tab value ["tab_map"], as for every tab value,
    selector and library: line 142 takes [idxmax] of an empty series
    before the tab is looked at. *)
Theorem unknown_tab_raises_without_department :
  empty (df example_no_dept) = false /\
  update_dashboard numpy example_no_dept None None "both" "tab_map" = Raise ValueError /\
  (forall pd filtro_genero active_tab,
     update_dashboard pd example_no_dept None None filtro_genero active_tab
     = Raise ValueError).
Proof.
  split; [reflexivity|]. split; [reflexivity|]. intros. reflexivity.
Qed.

(** ** Grouping *)

Section GroupByFacts.
Context {K A : Type} `{EqDecision K} (cmp : K -> K -> comparison).
Hypothesis cmp_eq : forall a b, cmp a b = Eq -> a = b.
Hypothesis cmp_refl : forall a, cmp a a = Eq.
Hypothesis cmp_antisym : forall a b, cmp b a = CompOpp (cmp a b).
Hypothesis cmp_trans : forall a b c, cmp a b = Lt -> cmp b c = Lt -> cmp a c = Lt.

Local Abbreviation key_lt := (@key_lt K A cmp).
Local Abbreviation above := (@above K A cmp).

Lemma cmp_Lt_ne a b : cmp a b = Lt -> a <> b.
Proof. intros H ->. rewrite cmp_refl in H. discriminate. Qed.

Lemma cmp_Gt_Lt a b : cmp a b = Gt -> cmp b a = Lt.
Proof. intros H. rewrite cmp_antisym, H. reflexivity. Qed.

Lemma above_trans k k' g : cmp k k' = Lt -> above k' g -> above k g.
Proof.
  intros Hk Hg. unfold above in *. eapply Forall_impl; [exact Hg|].
  intros h Hh. simpl in Hh. eauto.
Qed.

Lemma above_add k0 k r g :
  cmp k0 k = Lt -> above k0 g -> above k0 (add_to_group cmp k r g).
Proof.
  intros Hk. unfold above. induction g as [|[k' rs] g IH]; intros Hg; simpl.
  - constructor; [exact Hk|constructor].
  - inversion Hg as [|? ? Hh Hg']; subst. simpl in Hh.
    destruct (cmp k k') eqn:Hc.
    + constructor; [exact Hh|exact Hg'].
    + constructor; [exact Hk|]. constructor; [exact Hh|exact Hg'].
    + constructor; [exact Hh|]. apply IH, Hg'.
Qed.

Lemma add_to_group_sorted k r g :
  StronglySorted key_lt g -> StronglySorted key_lt (add_to_group cmp k r g).
Proof.
  induction g as [|[k' rs] g IH]; intros Hs; simpl.
  - repeat constructor.
  - inversion Hs as [|? ? Hs' Hf]; subst.
    destruct (cmp k k') eqn:Hc.
    + constructor; [exact Hs'|exact Hf].
    + constructor; [exact Hs|].
      constructor; [exact Hc|]. apply (above_trans k k'); [exact Hc|exact Hf].
    + constructor; [apply IH, Hs'|].
      apply (above_add k' k r g); [apply cmp_Gt_Lt, Hc|exact Hf].
Qed.

Lemma group_of_above k g : above k g -> group_of k g = [].
Proof.
  unfold above. induction 1 as [|h g Hh Hg IH]; simpl; [reflexivity|].
  destruct (decide (k = fst h)) as [->|]; [|exact IH].
  rewrite cmp_refl in Hh. discriminate.
Qed.

Lemma group_of_add k k0 r g :
  StronglySorted key_lt g ->
  group_of k (add_to_group cmp k0 r g) =
    if decide (k = k0) then r :: group_of k0 g else group_of k g.
Proof.
  induction g as [|[k' rs] g IH]; intros Hs; simpl.
  - destruct (decide (k = k0)); reflexivity.
  - inversion Hs as [|? ? Hs' Hf]; subst.
    destruct (cmp k0 k') eqn:Hc; simpl.
    + apply cmp_eq in Hc. subst k'.
      destruct (decide (k = k0)) as [->|Hne].
      * destruct (decide (k0 = k0)); [reflexivity|congruence].
      * reflexivity.
    + pose proof (cmp_Lt_ne _ _ Hc) as Hne0.
      destruct (decide (k = k0)) as [->|Hne].
      * destruct (decide (k0 = k')); [congruence|].
        rewrite (group_of_above k0 g); [reflexivity|].
        apply (above_trans k0 k'); [exact Hc|exact Hf].
      * reflexivity.
    + assert (Hne0 : k0 <> k').
      { intros ->. rewrite cmp_refl in Hc. discriminate. }
      rewrite (IH Hs').
      destruct (decide (k = k')) as [->|Hk'].
      * destruct (decide (k' = k0)); [congruence|reflexivity].
      * destruct (decide (k = k0)) as [->|]; [|reflexivity].
        destruct (decide (k0 = k')); [congruence|reflexivity].
Qed.

Lemma add_to_group_nonempty k r g :
  Forall (fun h => snd h <> []) g ->
  Forall (fun h : K * list A => snd h <> []) (add_to_group cmp k r g).
Proof.
  induction 1 as [|[k' rs] g Hh Hg IH]; simpl.
  - constructor; [discriminate|constructor].
  - destruct (cmp k k'); repeat (constructor; auto; try discriminate).
Qed.

Lemma group_of_sorted_in h g :
  StronglySorted key_lt g -> In h g -> group_of (fst h) g = snd h.
Proof.
  induction 1 as [|h' g Hs IH Hf]; intros Hin; simpl; [contradiction|].
  destruct Hin as [->|Hin].
  - destruct (decide (fst h = fst h)); [reflexivity|congruence].
  - destruct (decide (fst h = fst h')) as [He|]; [|apply IH, Hin].
    exfalso. rewrite List.Forall_forall in Hf. specialize (Hf h Hin).
    unfold key_lt in Hf. rewrite He, cmp_refl in Hf. discriminate.
Qed.

Lemma group_of_in (k : K) (g : list (K * list A)) :
  group_of k g <> [] -> In (k, group_of k g) g.
Proof.
  induction g as [|[k' rs] g IH]; simpl; [congruence|].
  destruct (decide (k = k')) as [->|]; [left; reflexivity|].
  intros Hne. right. apply IH, Hne.
Qed.

Variable key : A -> option K.

Local Abbreviation keyed := (@keyed K A _ key).

Lemma groupby_sorted l : StronglySorted key_lt (groupby cmp key l).
Proof.
  induction l as [|r l IH]; simpl; [constructor|].
  destruct (key r); [apply add_to_group_sorted, IH|exact IH].
Qed.

Lemma groupby_nonempty l : Forall (fun h => snd h <> []) (groupby cmp key l).
Proof.
  induction l as [|r l IH]; simpl; [constructor|].
  destruct (key r); [apply add_to_group_nonempty, IH|exact IH].
Qed.

Lemma group_of_groupby k l : group_of k (groupby cmp key l) = keyed k l.
Proof.
  induction l as [|r l IH]; simpl; [reflexivity|].
  destruct (key r) as [k0|] eqn:Hk.
  - rewrite group_of_add by apply groupby_sorted.
    destruct (decide (k = k0)) as [->|Hne].
    + rewrite bool_decide_eq_true_2 by reflexivity. rewrite <- IH. reflexivity.
    + rewrite bool_decide_eq_false_2 by congruence. exact IH.
  - rewrite bool_decide_eq_false_2 by congruence. exact IH.
Qed.

(** Every group is the non-empty list of the rows that carry its key. *)
Lemma groupby_groups l :
  Forall (fun h => snd h = keyed (fst h) l /\ snd h <> []) (groupby cmp key l).
Proof.
  apply List.Forall_forall. intros h Hin. split.
  - rewrite <- group_of_groupby. symmetry.
    apply group_of_sorted_in; [apply groupby_sorted|exact Hin].
  - pose proof (groupby_nonempty l) as Hn. rewrite List.Forall_forall in Hn.
    apply Hn, Hin.
Qed.

(** Every key that occurs has its group. *)
Lemma groupby_complete l r k :
  In r l -> key r = Some k -> In (k, keyed k l) (groupby cmp key l).
Proof.
  intros Hin Hk. rewrite <- group_of_groupby. apply group_of_in.
  rewrite group_of_groupby. intros He.
  assert (Hr : In r (keyed k l)).
  { unfold keyed. apply filter_In. split; [exact Hin|].
    apply bool_decide_eq_true_2, Hk. }
  rewrite He in Hr. contradiction.
Qed.

Lemma groupby_nil_iff l :
  groupby cmp key l = [] <-> Forall (fun r => key r = None) l.
Proof.
  split.
  - intros Hg. apply List.Forall_forall. intros r Hin.
    destruct (key r) as [k|] eqn:Hk; [|reflexivity].
    pose proof (groupby_complete l r k Hin Hk) as H0. rewrite Hg in H0. contradiction.
  - induction 1 as [|r l Hr Hl IH]; simpl; [reflexivity|]. rewrite Hr. exact IH.
Qed.

End GroupByFacts.

(** ** The two key orders *)

Lemma string_compare_refl s : String.compare s s = Eq.
Proof.
  induction s as [|a s IH]; simpl; [reflexivity|].
  unfold Ascii.compare. rewrite N.compare_refl. exact IH.
Qed.

Lemma string_compare_trans a b c :
  String.compare a b = Lt -> String.compare b c = Lt -> String.compare a c = Lt.
Proof.
  intros Hab Hbc.
  assert (Hle : String.le a c).
  { transitivity b; unfold String.le, String.leb; [rewrite Hab|rewrite Hbc]; exact I. }
  unfold String.le, String.leb in Hle.
  destruct (String.compare a c) eqn:Hac; [|reflexivity|contradiction].
  apply String.compare_eq_iff in Hac. subst c.
  rewrite String.compare_antisym, Hab in Hbc. discriminate.
Qed.

Lemma Z_compare_trans a b c : (a ?= b) = Lt -> (b ?= c) = Lt -> (a ?= c) = Lt.
Proof. rewrite !Z.compare_lt_iff. lia. Qed.

Create HintDb keys.
#[local] Hint Resolve String.compare_eq_iff string_compare_refl String.compare_antisym
  string_compare_trans Z.compare_eq Z.compare_refl Z.compare_antisym Z_compare_trans : keys.

Lemma StronglySorted_map {A B} (f : A -> B) (R : B -> B -> Prop) (l : list A) :
  StronglySorted (fun a b => R (f a) (f b)) l -> StronglySorted R (map f l).
Proof.
  induction 1 as [|a l Hs IH Hf]; simpl; constructor; [exact IH|].
  apply List.Forall_forall. intros b Hb. apply in_map_iff in Hb.
  destruct Hb as [a' [<- Ha']]. rewrite List.Forall_forall in Hf. apply Hf, Ha'.
Qed.

(** ** Totals by department *)

Lemma dept_groups_sorted l :
  StronglySorted (key_lt String.compare) (groupby String.compare departamento l).
Proof.
  apply groupby_sorted; eauto with keys.
Qed.

Lemma dept_totals_sorted pd d : StronglySorted by_label (dept_totals pd d).
Proof.
  unfold dept_totals. apply StronglySorted_map.
  exact (dept_groups_sorted (rows d)).
Qed.

Lemma dept_totals_in pd d e :
  In e (dept_totals pd d) ->
  snd e = series_total pd d (fst e) /\ of_dept (fst e) d <> [].
Proof.
  unfold dept_totals. intros He. apply in_map_iff in He.
  destruct He as [g [<- Hg]]. simpl.
  assert (HG : Forall (fun h => snd h = keyed departamento (fst h) (rows d) /\ snd h <> [])
                 (groupby String.compare departamento (rows d)))
    by (apply groupby_groups; eauto with keys).
  rewrite List.Forall_forall in HG. destruct (HG g Hg) as [H1 H2].
  unfold series_total, of_dept. rewrite <- H1. split; [reflexivity|exact H2].
Qed.

Lemma dept_totals_complete pd d r k :
  In r (rows d) -> departamento r = Some k ->
  In (k, series_total pd d k) (dept_totals pd d).
Proof.
  intros Hr Hk. unfold dept_totals. apply in_map_iff.
  exists (k, of_dept k d). split; [reflexivity|].
  apply groupby_complete with (r := r); eauto with keys.
Qed.

Lemma dept_totals_nil pd d :
  dept_totals pd d = [] <-> Forall (fun r => departamento r = None) (rows d).
Proof.
  unfold dept_totals.
  rewrite <- (groupby_nil_iff String.compare) by eauto with keys.
  destruct (groupby String.compare departamento (rows d)); simpl; split; congruence.
Qed.

(** ** Numbers *)

Lemma leb_le a b : Num.leb a b = true <-> (a <= b)%Qc.
Proof. unfold Num.leb, Qcle. apply Qle_bool_iff. Qed.

Lemma ltb_lt a b : Num.ltb a b = true <-> (a < b)%Qc.
Proof.
  unfold Num.ltb. rewrite negb_true_iff. split.
  - intros H. apply Qcnot_le_lt. intros Hle. apply leb_le in Hle.
    unfold Num.leb in Hle. congruence.
  - intros H. destruct (Qle_bool b a) eqn:Hb; [|reflexivity].
    apply leb_le in Hb. exfalso. exact (Qclt_not_le _ _ H Hb).
Qed.

Lemma ltb_ge a b : Num.ltb a b = false -> (b <= a)%Qc.
Proof.
  intros H. apply Qcnot_lt_le. intros Hlt. apply ltb_lt in Hlt. congruence.
Qed.

Lemma leb_total a b : Num.leb a b = true \/ Num.leb b a = true.
Proof.
  rewrite !leb_le. destruct (Qclt_le_dec a b) as [H|H]; [left|right]; [|exact H].
  apply Qclt_le_weak, H.
Qed.

Lemma leb_trans a b c : Num.leb a b = true -> Num.leb b c = true -> Num.leb a c = true.
Proof. rewrite !leb_le. apply Qcle_trans. Qed.

(** [int] is exact on whole numbers. *)
Lemma int_integer q : Num.is_integer q = true -> Num.of_Z (Num.int q) = q.
Proof.
  unfold Num.is_integer, Num.int, Num.of_Z. intros H. apply Pos.eqb_eq in H.
  apply Qc_is_canon. simpl. rewrite Qred_correct.
  destruct q as [[n m] Hq]. simpl in *. subst m.
  rewrite Z.quot_1_r. reflexivity.
Qed.

(** ** Binary64 *)

Lemma round_half_even_comp q q' : (q == q')%Q -> Num.round_half_even q = Num.round_half_even q'.
Proof.
  intros H. unfold Num.round_half_even.
  rewrite (Qfloor_comp _ _ H).
  assert (Hc : ((q - inject_Z (Qfloor q')) ?= (1 # 2))%Q = ((q' - inject_Z (Qfloor q')) ?= (1 # 2))%Q).
  { apply Qcompare_comp; [rewrite H; reflexivity|reflexivity]. }
  rewrite Hc. reflexivity.
Qed.

Lemma round_half_even_Z m : Num.round_half_even (inject_Z m) = m.
Proof.
  unfold Num.round_half_even. rewrite Qfloor_Z.
  assert (Hc : ((inject_Z m - inject_Z m) ?= (1 # 2))%Q = Lt).
  { apply Qlt_alt. ring_simplify (inject_Z m - inject_Z m)%Q. reflexivity. }
  rewrite Hc. reflexivity.
Qed.

Lemma two_power n : 0 <= n -> (Qpower 2 n == inject_Z (2 ^ n))%Q.
Proof. intros Hn. rewrite Zpower_Qpower by exact Hn. reflexivity. Qed.

Lemma ilog2_Z a : 0 < a -> Float64.ilog2 (inject_Z a) = Z.log2 a.
Proof.
  intros Ha. unfold Float64.ilog2. simpl. rewrite Z.sub_0_r.
  assert (H : Qle_bool (Qpower 2 (Z.log2 a)) (inject_Z a) = true).
  { apply Qle_bool_iff. rewrite two_power by apply Z.log2_nonneg.
    rewrite <- Zle_Qle. apply Z.log2_spec, Ha. }
  rewrite H. reflexivity.
Qed.

Lemma round_integer z : Z.abs z < 2 ^ 53 -> (Float64.round (inject_Z z) == inject_Z z)%Q.
Proof.
  intros Hz. destruct (Z.eq_dec z 0) as [->|Hne]; [reflexivity|].
  assert (Hbody : (let e := Z.max (Float64.ilog2 (Qabs (inject_Z z)) - 52) (-1074) in
             inject_Z (Num.round_half_even (inject_Z z / Qpower 2 e)) * Qpower 2 e
             == inject_Z z)%Q).
  { assert (Ha : 0 < Z.abs z) by lia.
    change (Qabs (inject_Z z)) with (inject_Z (Z.abs z)).
    rewrite (ilog2_Z _ Ha).
    assert (Hl : Z.log2 (Z.abs z) <= 52).
    { assert (Z.log2 (Z.abs z) < 53) by (apply Z.log2_lt_pow2; lia). lia. }
    pose proof (Z.log2_nonneg (Z.abs z)) as Hl0.
    set (n := 52 - Z.log2 (Z.abs z)).
    assert (He : Z.max (Z.log2 (Z.abs z) - 52) (-1074) = - n) by (unfold n; lia).
    cbv zeta. rewrite He.
    assert (Hn : 0 <= n) by (unfold n; lia).
    assert (Hp : (Qpower 2 (- n) == / inject_Z (2 ^ n))%Q).
    { rewrite Qpower_opp, two_power by exact Hn. reflexivity. }
    assert (Hpos : ~ (inject_Z (2 ^ n) == 0)%Q).
    { intros H0. assert (0 < 2 ^ n) by (apply Z.pow_pos_nonneg; lia).
      unfold Qeq in H0. simpl in H0. lia. }
    rewrite (round_half_even_comp _ (inject_Z (z * 2 ^ n))).
    - rewrite round_half_even_Z, Hp, inject_Z_mult. field. exact Hpos.
    - rewrite Hp, inject_Z_mult. field. exact Hpos. }
  unfold Float64.round. destruct z; [congruence|exact Hbody|exact Hbody].
Qed.

Lemma integer_this (q : Qc) : Num.is_integer q = true -> this q = inject_Z (Qnum q).
Proof.
  unfold Num.is_integer. intros H. apply Pos.eqb_eq in H.
  destruct q as [[n d] Hq]. simpl in *. subst d. reflexivity.
Qed.

Lemma of_Z_this z : this (Num.of_Z z) = inject_Z z.
Proof.
  unfold Num.of_Z. simpl. apply Qred_identity. simpl. apply Z.gcd_1_r.
Qed.

Lemma integer_of_Z (q : Qc) : Num.is_integer q = true -> q = Num.of_Z (Qnum q).
Proof.
  intros H. apply Qc_is_canon. rewrite of_Z_this, (integer_this q H). reflexivity.
Qed.

Lemma of_Z_plus a b : (Num.of_Z a + Num.of_Z b)%Qc = Num.of_Z (a + b).
Proof.
  apply Qc_is_canon. unfold Qcplus. simpl. rewrite !Qred_correct.
  rewrite inject_Z_plus. reflexivity.
Qed.

Lemma float64_add_integers a b :
  Z.abs (a + b) < 2 ^ 53 -> Float64.add (Num.of_Z a) (Num.of_Z b) = Num.of_Z (a + b).
Proof.
  intros H. unfold Float64.add. rewrite !of_Z_this.
  assert (Hs : (inject_Z a + inject_Z b)%Q = inject_Z (a + b)).
  { unfold Qplus, inject_Z. simpl. rewrite !Z.mul_1_r. reflexivity. }
  rewrite Hs. apply Qc_is_canon. simpl. rewrite !Qred_correct.
  apply round_integer, H.
Qed.

Lemma float64_fold_integers l acc :
  forallb Num.is_integer l = true -> Z.abs acc + abs_total l < 2 ^ 53 ->
  fold_left Float64.add l (Num.of_Z acc)
  = Num.of_Z (acc + fold_right Z.add 0 (map (fun q : Qc => Qnum q) l)).
Proof.
  revert acc. induction l as [|x l IH]; intros acc Hint Hb; simpl.
  - rewrite Z.add_0_r. reflexivity.
  - simpl in Hint. apply andb_prop in Hint. destruct Hint as [Hx Hl].
    unfold abs_total in Hb. simpl in Hb. fold (abs_total l) in Hb.
    assert (Hnn : 0 <= abs_total l).
    { unfold abs_total. clear. induction l; simpl; lia. }
    rewrite (integer_of_Z x Hx) at 1.
    rewrite float64_add_integers by lia.
    rewrite IH; [f_equal; lia|exact Hl|lia].
Qed.

Lemma num_sum_integers l :
  forallb Num.is_integer l = true ->
  Num.sum l = Num.of_Z (fold_right Z.add 0 (map (fun q : Qc => Qnum q) l)).
Proof.
  induction l as [|x l IH]; intros Hint; unfold Num.sum; simpl.
  - apply Qc_is_canon. reflexivity.
  - simpl in Hint. apply andb_prop in Hint. destruct Hint as [Hx Hl].
    change (fold_right Qcplus (Q2Qc 0) l) with (Num.sum l).
    rewrite (IH Hl). rewrite (integer_of_Z x Hx) at 1.
    apply of_Z_plus.
Qed.

(** A float64 sum taken from left to right is exact on whole numbers of
    total magnitude below 2^53. *)
Lemma float64_sum_exact : exact_on_whole Float64.sum.
Proof.
  intros l Hw. unfold whole in Hw. apply andb_prop in Hw. destruct Hw as [Hint Hb].
  apply Z.ltb_lt in Hb. unfold Float64.sum.
  change (Q2Qc 0) with (Num.of_Z 0).
  rewrite float64_fold_integers; [|exact Hint|exact Hb].
  rewrite num_sum_integers by exact Hint. reflexivity.
Qed.

Lemma int_of_Z z : Num.int (Num.of_Z z) = z.
Proof. unfold Num.int. rewrite of_Z_this. simpl. apply Z.quot_1_r. Qed.

(** ** KPI summary *)

(** [idxmax] picks the first entry that carries the greatest value. *)
Lemma argmax_from_split {K} (best : K * Qc) (s : list (K * Qc)) :
  exists l1 v l2,
    best :: s = l1 ++ (argmax_from best s, v) :: l2 /\
    Forall (fun e => (snd e < v)%Qc) l1 /\ Forall (fun e => (snd e <= v)%Qc) l2.
Proof.
  revert best. induction s as [|kv s IH]; intros best; simpl.
  - exists [], (snd best), []. destruct best. repeat split; constructor.
  - destruct (Num.ltb (snd best) (snd kv)) eqn:Hlt.
    + destruct (IH kv) as (l1 & v & l2 & Heq & H1 & H2).
      exists (best :: l1), v, l2. rewrite Heq. split; [reflexivity|].
      split; [|exact H2]. constructor; [|exact H1].
      apply ltb_lt in Hlt. eapply Qclt_le_trans; [exact Hlt|].
      destruct l1 as [|e l1]; simpl in Heq; injection Heq as Hb Hs.
      * rewrite Hb. apply Qcle_refl.
      * subst e. inversion H1; subst. apply Qclt_le_weak. assumption.
    + apply ltb_ge in Hlt.
      destruct (IH best) as (l1 & v & l2 & Heq & H1 & H2).
      destruct l1 as [|e l1]; simpl in Heq; injection Heq as Hb Hs.
      * pose proof (f_equal fst Hb) as Hk. pose proof (f_equal snd Hb) as Hv.
        simpl in Hk, Hv. subst l2.
        exists [], (snd best), (kv :: s). rewrite <- Hk.
        split; [destruct best; reflexivity|].
        split; [constructor|]. constructor; [exact Hlt|].
        rewrite Hv. exact H2.
      * subst e. exists (best :: kv :: l1), v, l2.
        split; [simpl; rewrite <- Hs; reflexivity|].
        inversion H1; subst. split; [|exact H2].
        constructor; [assumption|]. constructor; [|assumption].
        eapply Qcle_lt_trans; [exact Hlt|assumption].
Qed.

Lemma StronglySorted_app_inv {A} (R : A -> A -> Prop) (l1 l2 : list A) :
  StronglySorted R (l1 ++ l2) ->
  StronglySorted R l1 /\ StronglySorted R l2 /\
  Forall (fun a => Forall (R a) l2) l1.
Proof.
  induction l1 as [|a l1 IH]; simpl; intros H.
  - repeat split; [constructor|exact H|constructor].
  - inversion H as [|? ? Hs Hf]; subst. destruct (IH Hs) as (H1 & H2 & H3).
    apply Forall_app in Hf. destruct Hf as [Hf1 Hf2].
    repeat split; [constructor; assumption|assumption|constructor; assumption].
Qed.

Lemma column_ok d c :
  has_column d c = true -> column d c = Ok (map (cell_at c) (rows d)).
Proof. unfold column. intros ->. reflexivity. Qed.

Lemma well_formed_rows d : well_formed d -> empty d = true -> rows d = [].
Proof.
  intros (Hd & _) He. unfold empty in He. unfold has_column in Hd.
  apply bool_decide_eq_true_1 in Hd.
  destruct (columns d); [inversion Hd|]. destruct (rows d); [reflexivity|discriminate].
Qed.

Lemma idxmax_top pd d :
  Exists (fun r => departamento r <> None) (rows d) ->
  exists k, idxmax (dept_totals pd d) = Ok k /\ is_top_department pd d k.
Proof.
  intros Hex.
  destruct (dept_totals pd d) as [|kv s] eqn:Hdt.
  { apply dept_totals_nil in Hdt. apply List.Exists_exists in Hex.
    destruct Hex as [r [Hr Hn]]. rewrite List.Forall_forall in Hdt.
    elim Hn. apply Hdt, Hr. }
  simpl. eexists. split; [reflexivity|].
  destruct (argmax_from_split kv s) as (l1 & v & l2 & Heq & H1 & H2).
  set (k := argmax_from kv s) in *.
  pose proof (dept_totals_sorted pd d) as Hs. rewrite Hdt, Heq in Hs.
  apply StronglySorted_app_inv in Hs. destruct Hs as (_ & Hs2 & _).
  inversion Hs2 as [|? ? _ Hafter]; subst.
  assert (Hin : In (k, v) (dept_totals pd d)).
  { rewrite Hdt, Heq. apply in_or_app. right. left. reflexivity. }
  apply dept_totals_in in Hin. simpl in Hin. destruct Hin as [Hv Hne].
  split; [exact Hne|].
  apply List.Forall_forall. intros r Hr.
  destruct (departamento r) as [k'|] eqn:Hk'; [|exact I].
  pose proof (dept_totals_complete pd d r k' Hr Hk') as Hin'.
  rewrite Hdt, Heq in Hin'. rewrite <- Hv.
  apply in_app_or in Hin'. destruct Hin' as [Hin'|[Hin'|Hin']].
  - rewrite List.Forall_forall in H1. specialize (H1 _ Hin'). simpl in H1.
    split; [apply Qclt_le_weak, H1|].
    intros Hq. rewrite Hq in H1. exfalso. exact (Qclt_not_eq _ _ H1 eq_refl).
  - injection Hin' as Hk _. subst k'.
    split; [rewrite Hv; apply Qcle_refl|].
    intros _. rewrite string_compare_refl. discriminate.
  - rewrite List.Forall_forall in H2. specialize (H2 _ Hin'). simpl in H2.
    split; [exact H2|]. intros _.
    rewrite List.Forall_forall in Hafter. specialize (Hafter _ Hin').
    unfold by_label in Hafter. simpl in Hafter.
    rewrite String.compare_antisym, Hafter. discriminate.
Qed.

(** The quotient of line 141 is rounded to binary64 before [round]: the
    float nearest to 107/40 lies below 2.675. *)
Example parity_of_107_over_40 :
  Num.round2 (Float64.div 107 40) = Q2Qc (267 # 100) /\
  Num.round2 (Float64.div 12 13) = Q2Qc (92 # 100).
Proof. split; apply Qc_is_canon; vm_compute; reflexivity. Qed.




(** ** Yearly trend *)

Lemma trend_sorted d : StronglySorted by_year (trend d).
Proof.
  unfold trend. apply StronglySorted_map.
  assert (Hs : StronglySorted (key_lt Z.compare) (groupby Z.compare anno_inf (rows d)))
    by (apply groupby_sorted; eauto with keys).
  eapply StronglySorted_ind with (P := fun l => StronglySorted _ l) in Hs;
    [exact Hs|constructor|].
  intros a l _ IH Hf. constructor; [exact IH|].
  eapply Forall_impl; [exact Hf|]. intros b Hb. unfold key_lt in Hb. unfold by_year.
  simpl. apply Z.compare_lt_iff, Hb.
Qed.

Lemma trend_in d e :
  In e (trend d) -> of_year (fst e) d <> [] /\ snd e = year_totals d (fst e).
Proof.
  unfold trend. intros He. apply in_map_iff in He.
  destruct He as [g [<- Hg]]. simpl.
  assert (HG : Forall (fun h => snd h = keyed anno_inf (fst h) (rows d) /\ snd h <> [])
                 (groupby Z.compare anno_inf (rows d)))
    by (apply groupby_groups; eauto with keys).
  rewrite List.Forall_forall in HG. destruct (HG g Hg) as [H1 H2].
  unfold year_totals, total_of, of_year. rewrite <- H1. split; [exact H2|reflexivity].
Qed.

Lemma trend_complete d r y :
  In r (rows d) -> anno_inf r = Some y -> In y (map fst (trend d)).
Proof.
  intros Hr Hy. unfold trend. rewrite map_map. simpl.
  apply in_map_iff. exists (y, of_year y d). split; [reflexivity|].
  apply groupby_complete with (r := r); eauto with keys.
Qed.




(** ** Stable sorting *)

Section SortingFacts.
Context {A : Type} (le : A -> A -> bool).
Hypothesis le_total : forall a b, le a b = true \/ le b a = true.
Hypothesis le_trans : forall a b c, le a b = true -> le b c = true -> le a c = true.

Lemma insert_sorted_perm x l : Permutation (insert_sorted le x l) (x :: l).
Proof.
  induction l as [|y l IH]; simpl; [reflexivity|].
  destruct (le x y); [reflexivity|].
  rewrite IH. apply perm_swap.
Qed.

Lemma stable_sort_perm l : Permutation (stable_sort le l) l.
Proof.
  induction l as [|x l IH]; simpl; [reflexivity|].
  rewrite insert_sorted_perm. constructor. exact IH.
Qed.

Variable S : A -> A -> Prop.

Lemma insert_sorted_stable x l :
  StronglySorted (stable_order le S) l -> Forall (S x) l ->
  StronglySorted (stable_order le S) (insert_sorted le x l).
Proof.
  induction l as [|y l IH]; intros Hs Hx; simpl.
  - repeat constructor.
  - inversion Hs as [|? ? Hs' Hy]; subst. inversion Hx as [|? ? Hxy Hxl]; subst.
    destruct (le x y) eqn:Hle.
    + constructor; [exact Hs|]. constructor.
      * split; [exact Hle|]. intros _. exact Hxy.
      * rewrite List.Forall_forall in Hy, Hxl. apply List.Forall_forall.
        intros z Hz. destruct (Hy z Hz) as [Hyz _].
        split; [eapply le_trans; eassumption|]. intros _. apply Hxl, Hz.
    + constructor; [apply IH; assumption|].
      apply List.Forall_forall. intros z Hz.
      apply (Permutation_in _ (insert_sorted_perm x l)) in Hz.
      destruct Hz as [<-|Hz].
      * split; [destruct (le_total x y); congruence|]. intros Hc. congruence.
      * rewrite List.Forall_forall in Hy. apply Hy, Hz.
Qed.

(** Sorting an input that is ordered by [S] orders it by [le], and
    elements that [le] does not separate stay ordered by [S]. *)
Lemma stable_sort_stable l :
  StronglySorted S l -> StronglySorted (stable_order le S) (stable_sort le l).
Proof.
  induction 1 as [|x l Hs IH Hx]; simpl; [constructor|].
  apply insert_sorted_stable; [exact IH|].
  apply List.Forall_forall. intros z Hz.
  apply (Permutation_in _ (stable_sort_perm l)) in Hz.
  rewrite List.Forall_forall in Hx. apply Hx, Hz.
Qed.

End SortingFacts.

Lemma StronglySorted_impl {A} (R R' : A -> A -> Prop) (l : list A) :
  (forall a b, R a b -> R' a b) -> StronglySorted R l -> StronglySorted R' l.
Proof.
  intros HR. induction 1 as [|a l Hs IH Hf]; constructor; [exact IH|].
  eapply Forall_impl; [exact Hf|]. intros b. apply HR.
Qed.

Lemma StronglySorted_take {A} (R : A -> A -> Prop) (n : nat) (l : list A) :
  StronglySorted R l -> StronglySorted R (take n l).
Proof.
  intros Hs. rewrite <- (take_drop n l) in Hs.
  apply StronglySorted_app_inv in Hs. tauto.
Qed.

(** ** Department ranking *)

Lemma by_total_desc_total a b : by_total_desc a b = true \/ by_total_desc b a = true.
Proof. unfold by_total_desc. apply leb_total. Qed.

Lemma by_total_desc_trans a b c :
  by_total_desc a b = true -> by_total_desc b c = true -> by_total_desc a c = true.
Proof. unfold by_total_desc. intros H1 H2. eapply leb_trans; eassumption. Qed.

Lemma by_total_asc_total a b : by_total_asc a b = true \/ by_total_asc b a = true.
Proof. unfold by_total_asc. apply leb_total. Qed.

Lemma by_total_asc_trans a b c :
  by_total_asc a b = true -> by_total_asc b c = true -> by_total_asc a c = true.
Proof. unfold by_total_asc. intros H1 H2. eapply leb_trans; eassumption. Qed.

(** The series as the long branch of [nlargest] sorts it. *)
Lemma descending_sorted pd d :
  StronglySorted (stable_order by_total_desc by_label)
    (stable_sort by_total_desc (dept_totals pd d)).
Proof.
  apply stable_sort_stable.
  - apply by_total_desc_total.
  - apply by_total_desc_trans.
  - apply dept_totals_sorted.
Qed.

Lemma descending_outranks a b : stable_order by_total_desc by_label a b -> outranks a b.
Proof.
  intros [Hle Hst]. unfold by_total_desc in *. apply leb_le in Hle.
  destruct (Qcle_lt_or_eq _ _ Hle) as [Hlt|Heq]; [left; exact Hlt|].
  right. split; [exact Heq|]. apply Hst. apply leb_le. rewrite Heq. apply Qcle_refl.
Qed.

(** What [nlargest] keeps and what it drops. *)
Lemma nlargest_split pd n s :
  sorts (sort_by pd) -> StronglySorted by_label s ->
  length (nlargest pd n s) = Nat.min n (length s) /\
  exists rest, Permutation s (nlargest pd n s ++ rest) /\
               Forall (fun a => Forall (outranks a) rest) (nlargest pd n s).
Proof.
  intros Hsort Hs. unfold nlargest.
  destruct (length s <=? n)%nat eqn:Hn.
  - apply Nat.leb_le in Hn. destruct (Hsort false s) as [Hp _].
    rewrite take_ge by (rewrite (Permutation_length Hp); exact Hn).
    split; [rewrite (Permutation_length Hp); lia|].
    exists []. rewrite app_nil_r. split; [symmetry; exact Hp|].
    apply List.Forall_forall. intros a _. constructor.
  - apply Nat.leb_gt in Hn. set (L := stable_sort by_total_desc s).
    assert (HL : Permutation L s) by apply stable_sort_perm.
    split; [rewrite length_take, (Permutation_length HL); reflexivity|].
    exists (drop n L). split; [rewrite take_drop; symmetry; exact HL|].
    assert (HsL : StronglySorted (stable_order by_total_desc by_label) L).
    { apply stable_sort_stable;
        [apply by_total_desc_total|apply by_total_desc_trans|exact Hs]. }
    rewrite <- (take_drop n L) in HsL.
    apply StronglySorted_app_inv in HsL. destruct HsL as (_ & _ & Hcut).
    eapply Forall_impl; [exact Hcut|]. intros a Ha.
    eapply Forall_impl; [exact Ha|]. intros b. apply descending_outranks.
Qed.


Lemma StronglySorted_any {A} (l : list A) : StronglySorted (fun _ _ => True) l.
Proof.
  induction l; constructor; [assumption|]. apply List.Forall_forall. intros; exact I.
Qed.

Lemma StronglySorted_rev {A} (R : A -> A -> Prop) (l : list A) :
  StronglySorted R l -> StronglySorted (fun a b => R b a) (rev l).
Proof.
  induction 1 as [|a l Hs IH Hf]; simpl; [constructor|].
  assert (Happ : forall l1 l2,
             StronglySorted (fun a b => R b a) l1 ->
             StronglySorted (fun a b => R b a) l2 ->
             (forall x y, In x l1 -> In y l2 -> R y x) ->
             StronglySorted (fun a b => R b a) (l1 ++ l2)).
  { clear. induction l1 as [|x l1 IH1]; intros l2 H1 H2 H12; simpl; [exact H2|].
    inversion H1 as [|? ? Hs1 Hf1]; subst. constructor.
    - apply IH1; [exact Hs1|exact H2|]. intros u v Hu Hv. apply H12; [right; exact Hu|exact Hv].
    - apply Forall_app. split; [exact Hf1|].
      apply List.Forall_forall. intros y Hy. apply H12; [left; reflexivity|exact Hy]. }
  apply Happ; [exact IH|repeat constructor|].
  intros x y Hx [<-|[]]. rewrite List.Forall_forall in Hf.
  apply Hf. apply in_rev. exact Hx.
Qed.

Lemma stable_sort_sorted_as (asc : bool) l :
  StronglySorted (sorted_as asc)
    (stable_sort (if asc then by_total_asc else by_total_desc) l).
Proof.
  destruct asc.
  - eapply StronglySorted_impl;
      [|apply (stable_sort_stable by_total_asc by_total_asc_total by_total_asc_trans
                 (fun _ _ => True)), StronglySorted_any].
    intros a b [Hle _]. apply leb_le, Hle.
  - eapply StronglySorted_impl;
      [|apply (stable_sort_stable by_total_desc by_total_desc_total by_total_desc_trans
                 (fun _ _ => True)), StronglySorted_any].
    intros a b [Hle _]. apply leb_le, Hle.
Qed.

(** Both example libraries are sorts. *)
Lemma numpy_sorts : sorts (sort_by numpy).
Proof.
  intros asc l. split; [apply stable_sort_perm|apply stable_sort_sorted_as].
Qed.

Lemma reversing_sorts : sorts (sort_by reversing).
Proof.
  intros asc l. simpl. destruct asc.
  - split; [rewrite <- Permutation_rev; apply stable_sort_perm|].
    apply (StronglySorted_rev (sorted_as false)), (stable_sort_sorted_as false).
  - split; [apply stable_sort_perm|apply (stable_sort_sorted_as false)].
Qed.



(** ** Normalisation *)

Lemma cell_at_insert c c' v (r : Row) :
  cell_at c (<[c' := v]> r) = if decide (c' = c) then v else cell_at c r.
Proof.
  unfold cell_at. rewrite lookup_insert. destruct (decide (c' = c)); reflexivity.
Qed.

Lemma cell_at_insert_ne c c' v (r : Row) :
  c' <> c -> cell_at c (<[c' := v]> r) = cell_at c r.
Proof. intros H. rewrite cell_at_insert. destruct (decide (c' = c)); congruence. Qed.

Lemma num_at_insert_ne c c' v (r : Row) :
  c' <> c -> num_at c (<[c' := v]> r) = num_at c r.
Proof. intros H. unfold num_at. rewrite cell_at_insert_ne by exact H. reflexivity. Qed.

Section Normaliser.
Variable parse : string -> option Qc.

(** A coerced cell is a number: the value read, or 0 when none is. *)
Lemma coerced_number x :
  exists q, coerced parse x = Num q /\
            match to_numeric parse x with Num v => q = v | _ => q = Q2Qc 0 end.
Proof.
  unfold coerced. destruct x as [|q|s]; simpl; eauto.
  destruct (parse s); simpl; eauto.
Qed.

Lemma coerced_idem x : coerced parse (coerced parse x) = coerced parse x.
Proof.
  destruct (coerced_number x) as (q & Hq & _). rewrite Hq. reflexivity.
Qed.

Lemma cell_at_coerce_row cs c r :
  cell_at c (coerce_row parse cs r) =
    if bool_decide (c ∈ cs) then coerced parse (cell_at c r) else cell_at c r.
Proof.
  revert r. induction cs as [|c0 cs IH]; intros r; [reflexivity|].
  unfold coerce_row in *. simpl. rewrite IH, cell_at_insert.
  destruct (decide (c0 = c)) as [->|Hne].
  - rewrite (bool_decide_eq_true_2 (c ∈ c :: cs)) by left.
    rewrite coerced_idem. destruct (bool_decide (c ∈ cs)); reflexivity.
  - destruct (bool_decide (c ∈ cs)) eqn:Hc.
    + apply bool_decide_eq_true_1 in Hc.
      rewrite bool_decide_eq_true_2 by (right; exact Hc). reflexivity.
    + apply bool_decide_eq_false_1 in Hc.
      rewrite bool_decide_eq_false_2; [reflexivity|].
      rewrite elem_of_cons. intros [?|?]; congruence.
Qed.

Lemma rows_coerce_columns cs d :
  rows (fold_left (coerce_column parse) cs d) = map (coerce_row parse cs) (rows d).
Proof.
  revert d. induction cs as [|c cs IH]; intros d; simpl.
  - symmetry. apply map_id.
  - rewrite IH. unfold coerce_column, set_column; simpl. rewrite map_map.
    reflexivity.
Qed.

Lemma numeric_column_label raw c :
  In c (numeric_columns raw) ->
  c <> "TOTAL" /\ c <> "TOTAL_FEM" /\ c <> "TOTAL_MASC" /\ c <> "anno_inf".
Proof.
  unfold numeric_columns, col_fem, col_masc. rewrite !in_app_iff, !filter_In.
  intros H. repeat split; intros ->;
    destruct H as [[_ H]|[[_ H]|[[_ H]|[_ H]]]]; discriminate H.
Qed.

Lemma row_sum_ext cs (r r' : Row) :
  (forall c, In c cs -> cell_at c r' = cell_at c r) -> row_sum cs r' = row_sum cs r.
Proof.
  intros H. unfold row_sum. f_equal. apply map_ext_in. intros c Hc.
  unfold num_at. rewrite (H c Hc). reflexivity.
Qed.

Lemma cell_at_add_totals fem masc c r :
  c <> "TOTAL" -> c <> "TOTAL_FEM" -> c <> "TOTAL_MASC" ->
  cell_at c (add_totals fem masc r) = cell_at c r.
Proof.
  intros H1 H2 H3. unfold add_totals. cbv zeta.
  rewrite !cell_at_insert_ne by congruence. reflexivity.
Qed.

(** What lines 29-31 leave in a row whose [fem] and [masc] columns are
    none of the three total columns. *)
Lemma add_totals_cells fem masc r :
  (forall c, In c (fem ++ masc) ->
             c <> "TOTAL" /\ c <> "TOTAL_FEM" /\ c <> "TOTAL_MASC") ->
  let r' := add_totals fem masc r in
  cell_at "TOTAL_FEM" r' = Num (row_sum fem r') /\
  cell_at "TOTAL_MASC" r' = Num (row_sum masc r') /\
  cell_at "TOTAL" r' = Num (num_at "TOTAL_FEM" r' + num_at "TOTAL_MASC" r')%Qc.
Proof.
  intros Hl r'.
  assert (Hsame : forall c, In c (fem ++ masc) -> cell_at c r' = cell_at c r).
  { intros c Hc. destruct (Hl c Hc) as (? & ? & ?).
    apply cell_at_add_totals; assumption. }
  assert (Hf : cell_at "TOTAL_FEM" r' = Num (row_sum fem r)).
  { unfold r', add_totals. cbv zeta.
    rewrite !cell_at_insert_ne by discriminate. rewrite cell_at_insert.
    destruct (decide ("TOTAL_FEM" = "TOTAL_FEM")); [reflexivity|congruence]. }
  assert (Hm : cell_at "TOTAL_MASC" r' = Num (row_sum masc r)).
  { unfold r', add_totals. cbv zeta.
    rewrite cell_at_insert_ne by discriminate. rewrite cell_at_insert.
    destruct (decide ("TOTAL_MASC" = "TOTAL_MASC")); [|congruence].
    f_equal. apply row_sum_ext. intros c Hc.
    destruct (Hl c (in_or_app _ _ _ (or_intror Hc))) as (? & ? & ?).
    apply cell_at_insert_ne. congruence. }
  split; [|split].
  - rewrite Hf. f_equal. symmetry. apply row_sum_ext. intros c Hc.
    apply Hsame, in_or_app. left. exact Hc.
  - rewrite Hm. f_equal. symmetry. apply row_sum_ext. intros c Hc.
    apply Hsame, in_or_app. right. exact Hc.
  - unfold r', add_totals. cbv zeta. rewrite cell_at_insert.
    destruct (decide ("TOTAL" = "TOTAL")); [|congruence].
    rewrite !(num_at_insert_ne _ "TOTAL") by discriminate. reflexivity.
Qed.

(** The frame a successful load holds: every row of the source, coerced,
    its year column possibly retyped, the three totals added. *)
Lemma process_rows raw s :
  process parse raw = Ok s ->
  exists yr : Row -> Row,
    (forall r c, c <> "anno_inf" -> cell_at c (yr r) = cell_at c r) /\
    rows (df s) =
      map (fun r => add_totals (col_fem raw) (col_masc raw)
                      (yr (coerce_row parse (numeric_columns raw) r))) (rows raw).
Proof.
  unfold process. fold (col_fem raw) (col_masc raw).
  set (d0 := fold_left (coerce_column parse) _ raw).
  assert (H0 : rows d0 = map (coerce_row parse (numeric_columns raw)) (rows raw))
    by apply rows_coerce_columns.
  assert (Hstep : forall d1 yr,
            rows d1 = map yr (rows d0) ->
            (forall r c, c <> "anno_inf" -> cell_at c (yr r) = cell_at c r) ->
            (d ← Ok d1;
             let d := set_column "TOTAL_FEM" (fun r => Num (row_sum (col_fem raw) r)) d in
             let d := set_column "TOTAL_MASC" (fun r => Num (row_sum (col_masc raw) r)) d in
             let d := set_column "TOTAL"
                        (fun r => Num (num_at "TOTAL_FEM" r + num_at "TOTAL_MASC" r)%Qc) d in
             let years := if has_column d "anno_inf"
                          then sorted_unique Z.compare (omap anno_inf (rows d)) else [] in
             _ ← column d "departamento";
             let depts := sorted_unique String.compare (omap departamento (rows d)) in
             Ok {| df := d; col_tasa := List.filter (startswith "tasa") (columns raw);
                   col_ipg := List.filter (startswith "ipg") (columns raw);
                   years := years; depts := depts |}) = Ok s ->
            exists yr : Row -> Row,
              (forall r c, c <> "anno_inf" -> cell_at c (yr r) = cell_at c r) /\
              rows (df s) =
                map (fun r => add_totals (col_fem raw) (col_masc raw)
                                (yr (coerce_row parse (numeric_columns raw) r))) (rows raw)).
  { intros d1 yr Hr Hyr H. cbn [mbind result_bind] in H. cbv zeta in H.
    match type of H with
    | (?m ≫= _) = _ => destruct m; cbn [mbind result_bind] in H; [|discriminate]
    end.
    injection H as <-. exists yr. split; [exact Hyr|]. simpl.
    rewrite Hr, H0, !map_map. reflexivity. }
  destruct (has_column d0 "anno_inf").
  - unfold coerce_year.
    destruct (forallb _ (rows d0)); [|discriminate].
    apply (Hstep _ (fun r => <["anno_inf" := to_numeric parse (cell_at "anno_inf" r)]> r)).
    + reflexivity.
    + intros r c Hc. apply cell_at_insert_ne. congruence.
  - apply (Hstep d0 (fun r => r)); [symmetry; apply map_id|reflexivity].
Qed.

End Normaliser.

Lemma Forall2_map_right {A B} (P : A -> B -> Prop) (f : A -> B) (l : list A) :
  (forall a, P a (f a)) -> Forall2 P l (map f l).
Proof. intros H. induction l; simpl; constructor; auto. Qed.



(** Text that is not a number, and a missing value, both load as 0. *)
Example malformed_counts_load_as_zero :
  map (fun r => (num_at "matriculacion_fem_5" r, num_at "matriculacion_masc_5" r,
                 num_at "TOTAL" r)) (rows (df example_malformed))
  = [(Q2Qc 0, Q2Qc 0, Q2Qc 0)].
Proof. vm_compute. repeat f_equal; apply Qc_is_canon; reflexivity. Qed.


(** * Further properties of the code *)

(** ** The sidebar toggle *)

(** Whatever the click count and the class found, the sidebar class after
    a click is [""] or ["open"]; a first click on a sidebar that is not
    open opens it, and from then on every second click restores the class. *)
Theorem toggle_menu_alternates (n m : option Z) (current : option string) :
  (toggle_menu n current = "" \/ toggle_menu n current = "open") /\
  (toggle_menu n current = "" <-> current = Some "open") /\
  toggle_menu m (Some (toggle_menu n (Some (toggle_menu m current))))
    = toggle_menu m current.
Proof.
  unfold toggle_menu.
  destruct (bool_decide (current = Some "open")) eqn:Hc.
  - apply bool_decide_eq_true_1 in Hc.
    split; [left; reflexivity|]. split; [tauto|reflexivity].
  - apply bool_decide_eq_false_1 in Hc.
    split; [right; reflexivity|]. split; [|reflexivity].
    split; [discriminate|contradiction].
Qed.

(** ** What a successful load establishes *)

Lemma has_column_set_column c f d c' :
  has_column (set_column c f d) c' = has_column d c' || bool_decide (c' = c).
Proof.
  unfold set_column. unfold has_column at 1. simpl.
  destruct (has_column d c) eqn:Hc; unfold has_column in *.
  - apply bool_decide_eq_true_1 in Hc.
    destruct (bool_decide (c' ∈ columns d)) eqn:Hc'; [reflexivity|].
    apply bool_decide_eq_false_1 in Hc'. simpl. symmetry.
    apply bool_decide_eq_false_2. intros ->. contradiction.
  - apply eq_true_iff_eq.
    rewrite orb_true_iff, !bool_decide_eq_true, elem_of_app, list_elem_of_singleton.
    reflexivity.
Qed.

Lemma has_column_coerce_columns parse cs d c :
  has_column d c = true ->
  has_column (fold_left (coerce_column parse) cs d) c = true.
Proof.
  revert d. induction cs as [|c0 cs IH]; intros d Hd; simpl; [exact Hd|].
  apply IH. unfold coerce_column. rewrite has_column_set_column, Hd. reflexivity.
Qed.

Lemma columns_coerce_columns parse cs d :
  (forall c, In c cs -> has_column d c = true) ->
  columns (fold_left (coerce_column parse) cs d) = columns d.
Proof.
  revert d. induction cs as [|c0 cs IH]; intros d Hd; simpl; [reflexivity|].
  assert (Hc : columns (coerce_column parse d c0) = columns d).
  { unfold coerce_column, set_column; simpl. rewrite Hd by (left; reflexivity).
    reflexivity. }
  rewrite IH; [exact Hc|].
  intros c Hin. unfold has_column. rewrite Hc. apply Hd. right. exact Hin.
Qed.

Lemma numeric_columns_present raw c :
  In c (numeric_columns raw) -> has_column raw c = true.
Proof.
  unfold numeric_columns, col_fem, col_masc. rewrite !in_app_iff, !filter_In.
  intros H. apply bool_decide_eq_true_2, list_elem_of_In. tauto.
Qed.

(** The shape of a successful load. *)
Lemma process_inv parse raw s :
  process parse raw = Ok s ->
  (forall c, has_column (df s) c =
             has_column raw c || bool_decide (c = "TOTAL_FEM")
             || bool_decide (c = "TOTAL_MASC") || bool_decide (c = "TOTAL")) /\
  has_column raw "departamento" = true /\
  years s = (if has_column raw "anno_inf"
             then sorted_unique Z.compare (omap anno_inf (rows (df s))) else []) /\
  depts s = sorted_unique String.compare (omap departamento (rows (df s))) /\
  col_tasa s = List.filter (startswith "tasa") (columns raw) /\
  col_ipg s = List.filter (startswith "ipg") (columns raw).
Proof.
  unfold process. fold (col_fem raw) (col_masc raw).
  set (d0 := fold_left (coerce_column parse) _ raw).
  assert (H0 : columns d0 = columns raw).
  { apply columns_coerce_columns. apply numeric_columns_present. }
  assert (Hstep : forall d1,
            columns d1 = columns raw ->
            (d ← Ok d1;
             let d := set_column "TOTAL_FEM" (fun r => Num (row_sum (col_fem raw) r)) d in
             let d := set_column "TOTAL_MASC" (fun r => Num (row_sum (col_masc raw) r)) d in
             let d := set_column "TOTAL"
                        (fun r => Num (num_at "TOTAL_FEM" r + num_at "TOTAL_MASC" r)%Qc) d in
             let years := if has_column d "anno_inf"
                          then sorted_unique Z.compare (omap anno_inf (rows d)) else [] in
             _ ← column d "departamento";
             let depts := sorted_unique String.compare (omap departamento (rows d)) in
             Ok {| df := d; col_tasa := List.filter (startswith "tasa") (columns raw);
                   col_ipg := List.filter (startswith "ipg") (columns raw);
                   years := years; depts := depts |}) = Ok s ->
            (forall c, has_column (df s) c =
                       has_column raw c || bool_decide (c = "TOTAL_FEM")
                       || bool_decide (c = "TOTAL_MASC") || bool_decide (c = "TOTAL")) /\
            has_column raw "departamento" = true /\
            years s = (if has_column raw "anno_inf"
                       then sorted_unique Z.compare (omap anno_inf (rows (df s))) else []) /\
            depts s = sorted_unique String.compare (omap departamento (rows (df s))) /\
            col_tasa s = List.filter (startswith "tasa") (columns raw) /\
            col_ipg s = List.filter (startswith "ipg") (columns raw)).
  { intros d1 Hc1 H. cbn [mbind result_bind] in H. cbv zeta in H.
    set (d3 := set_column "TOTAL" _ _) in H.
    assert (Hcols : forall c, has_column d3 c =
                      has_column raw c || bool_decide (c = "TOTAL_FEM")
                      || bool_decide (c = "TOTAL_MASC") || bool_decide (c = "TOTAL")).
    { intros c. unfold d3. rewrite !has_column_set_column.
      unfold has_column at 1. rewrite Hc1. reflexivity. }
    unfold column in H. destruct (has_column d3 "departamento") eqn:Hd;
      cbn [mbind result_bind] in H; [|discriminate].
    injection H as <-. simpl.
    split; [exact Hcols|]. split.
    - rewrite Hcols in Hd. simpl in Hd. rewrite !orb_false_r in Hd. exact Hd.
    - split; [|repeat split]. rewrite Hcols. simpl. rewrite !orb_false_r. reflexivity. }
  destruct (has_column d0 "anno_inf") eqn:Ha.
  - unfold coerce_year. destruct (forallb _ (rows d0)); [|discriminate].
    apply Hstep. unfold set_column; simpl. rewrite Ha. exact H0.
  - apply Hstep, H0.
Qed.

Lemma process_well_formed parse raw s : process parse raw = Ok s -> well_formed (df s).
Proof.
  intros H. apply process_inv in H. destruct H as (Hc & Hd & _).
  unfold well_formed. rewrite !Hc, Hd.
  destruct (has_column raw "TOTAL_FEM"), (has_column raw "TOTAL_MASC"),
    (has_column raw "TOTAL"); repeat split.
Qed.

Lemma select_well_formed p d : well_formed d -> well_formed (select p d).
Proof. exact (fun H => H). Qed.

Lemma filtered_spec y deps d :
  has_column d "departamento" = true ->
  filtered y deps d =
    if year_raises y d then Raise (KeyError "anno_inf")
    else Ok (select (fun r => year_passes y r && dept_passes deps r) d).
Proof.
  intros Hd. unfold filtered. rewrite filter_year_spec.
  destruct (year_raises y d); [reflexivity|]. cbn [mbind result_bind].
  rewrite filter_dep_spec by exact Hd. rewrite select_select. reflexivity.
Qed.

(** ** The dimension catalogue (lines 33-34) *)

Section SortedUniqueFacts.
Context {K : Type} (cmp : K -> K -> comparison).
Hypothesis cmp_eq : forall a b, cmp a b = Eq -> a = b.
Hypothesis cmp_refl : forall a, cmp a a = Eq.
Hypothesis cmp_antisym : forall a b, cmp b a = CompOpp (cmp a b).
Hypothesis cmp_trans : forall a b c, cmp a b = Lt -> cmp b c = Lt -> cmp a c = Lt.

Lemma insert_unique_in k x l : In x (insert_unique cmp k l) <-> x = k \/ In x l.
Proof.
  induction l as [|k' l IH]; simpl; [intuition|].
  destruct (cmp k k') eqn:Hc; simpl.
  - apply cmp_eq in Hc. subst k'. intuition.
  - intuition.
  - rewrite IH. intuition.
Qed.

Lemma insert_unique_sorted k l :
  StronglySorted (fun a b => cmp a b = Lt) l ->
  StronglySorted (fun a b => cmp a b = Lt) (insert_unique cmp k l).
Proof.
  induction l as [|k' l IH]; intros Hs; simpl.
  - repeat constructor.
  - inversion Hs as [|? ? Hs' Hf]; subst.
    destruct (cmp k k') eqn:Hc.
    + exact Hs.
    + constructor; [exact Hs|]. constructor; [exact Hc|].
      eapply Forall_impl; [exact Hf|]. intros b Hb. simpl in Hb. eauto.
    + constructor; [apply IH, Hs'|].
      apply List.Forall_forall. intros x Hx. apply insert_unique_in in Hx.
      destruct Hx as [->|Hx].
      * rewrite cmp_antisym, Hc. reflexivity.
      * rewrite List.Forall_forall in Hf. apply Hf, Hx.
Qed.

Lemma sorted_unique_in x l : In x (sorted_unique cmp l) <-> In x l.
Proof.
  induction l as [|k l IH]; simpl; [reflexivity|].
  rewrite insert_unique_in, IH. intuition.
Qed.

Lemma sorted_unique_sorted l :
  StronglySorted (fun a b => cmp a b = Lt) (sorted_unique cmp l).
Proof.
  induction l as [|k l IH]; simpl; [constructor|].
  apply insert_unique_sorted, IH.
Qed.

(** Two strictly ascending lists with the same elements are equal. *)
Lemma sorted_same_elements (l1 l2 : list K) :
  StronglySorted (fun a b => cmp a b = Lt) l1 ->
  StronglySorted (fun a b => cmp a b = Lt) l2 ->
  (forall x, In x l1 <-> In x l2) -> l1 = l2.
Proof.
  intros H1. revert l2. induction H1 as [|a l1 Hs1 IH Hf1]; intros l2 H2 Hin.
  - destruct l2 as [|b l2]; [reflexivity|].
    exfalso. apply (proj2 (Hin b)). left. reflexivity.
  - destruct H2 as [|b l2 Hs2 Hf2].
    + exfalso. apply (proj1 (Hin a)). left. reflexivity.
    + rewrite List.Forall_forall in Hf1, Hf2.
      assert (Hab : a = b).
      { destruct (proj1 (Hin a) (or_introl eq_refl)) as [Hb|Hb]; [congruence|].
        destruct (proj2 (Hin b) (or_introl eq_refl)) as [Ha|Ha]; [congruence|].
        pose proof (Hf1 b Ha) as Hlt1. pose proof (Hf2 a Hb) as Hlt2.
        rewrite cmp_antisym, Hlt1 in Hlt2. discriminate. }
      subst b. f_equal. apply IH; [exact Hs2|].
      intros x. split; intros Hx.
      * destruct (proj1 (Hin x) (or_intror Hx)) as [<-|Hx2]; [|exact Hx2].
        pose proof (Hf1 a Hx) as Hlt. rewrite cmp_refl in Hlt. discriminate.
      * destruct (proj2 (Hin x) (or_intror Hx)) as [<-|Hx1]; [|exact Hx1].
        pose proof (Hf2 a Hx) as Hlt. rewrite cmp_refl in Hlt. discriminate.
Qed.

End SortedUniqueFacts.

Lemma in_omap {A B} (f : A -> option B) (l : list A) (y : B) :
  In y (omap f l) <-> exists x, In x l /\ f x = Some y.
Proof.
  rewrite <- list_elem_of_In, list_elem_of_omap.
  split; intros (x & Hx & Hf); exists x; split; try exact Hf;
    apply list_elem_of_In; exact Hx.
Qed.

Lemma keyed_nonempty {K A} `{EqDecision K} (key : A -> option K) k (l : list A) :
  keyed key k l <> [] <-> exists r, In r l /\ key r = Some k.
Proof.
  unfold keyed. split.
  - intros Hne. destruct (List.filter _ l) as [|r rs] eqn:Hf; [congruence|].
    assert (Hr : In r (List.filter (fun r => bool_decide (key r = Some k)) l))
      by (rewrite Hf; left; reflexivity).
    apply filter_In in Hr. destruct Hr as [Hr Hk].
    exists r. split; [exact Hr|]. apply bool_decide_eq_true_1 in Hk. exact Hk.
  - intros (r & Hr & Hk) He.
    assert (Hin : In r (List.filter (fun r => bool_decide (key r = Some k)) l)).
    { apply filter_In. split; [exact Hr|]. apply bool_decide_eq_true_2, Hk. }
    rewrite He in Hin. contradiction.
Qed.

(** The labels of the two grouped series are the sorted distinct keys. *)
Lemma trend_years d :
  map fst (trend d) = sorted_unique Z.compare (omap anno_inf (rows d)).
Proof.
  apply (sorted_same_elements Z.compare); eauto with keys.
  - apply StronglySorted_map. eapply StronglySorted_impl; [|apply trend_sorted].
    intros a b Hab. apply Z.compare_lt_iff, Hab.
  - apply sorted_unique_sorted; eauto with keys.
  - intros y. rewrite sorted_unique_in by eauto with keys. rewrite in_omap. split.
    + intros Hy. apply in_map_iff in Hy. destruct Hy as [e [<- He]].
      apply trend_in in He. destruct He as [Hne _].
      apply keyed_nonempty in Hne. exact Hne.
    + intros (r & Hr & Hy). eapply trend_complete; eassumption.
Qed.

Lemma dept_totals_departments pd d :
  map fst (dept_totals pd d) = sorted_unique String.compare (omap departamento (rows d)).
Proof.
  apply (sorted_same_elements String.compare); eauto with keys.
  - apply StronglySorted_map. exact (dept_totals_sorted pd d).
  - apply sorted_unique_sorted; eauto with keys.
  - intros k. rewrite sorted_unique_in by eauto with keys. rewrite in_omap. split.
    + intros Hk. apply in_map_iff in Hk. destruct Hk as [e [<- He]].
      apply dept_totals_in in He. destruct He as [_ Hne].
      apply keyed_nonempty in Hne. exact Hne.
    + intros (r & Hr & Hk). apply in_map_iff.
      exists (k, series_total pd d k). split; [reflexivity|].
      eapply dept_totals_complete; eassumption.
Qed.

(** ** What the callback can raise *)

Lemma kpi_summary_cases pd d :
  well_formed d ->
  (rows d <> [] /\ Forall (fun r => departamento r = None) (rows d) /\
   kpi_summary pd d = Raise ValueError) \/
  ((rows d = [] \/ Exists (fun r => departamento r <> None) (rows d)) /\
   exists k, kpi_summary pd d = Ok k).
Proof.
  intros Hwf. pose proof Hwf as (Hdep & Hfem & Hmasc & Htot).
  unfold kpi_summary.
  rewrite (column_ok d "TOTAL_FEM" Hfem), (column_ok d "TOTAL_MASC" Hmasc).
  cbn [mbind result_bind]. cbv zeta.
  destruct (empty d) eqn:He; simpl.
  - right. split; [left; apply well_formed_rows; assumption|].
    eexists. reflexivity.
  - rewrite (column_ok d _ Hdep), (column_ok d _ Htot). cbn [mbind result_bind].
    destruct (dept_totals pd d) as [|kv t] eqn:Hdt.
    + left. apply dept_totals_nil in Hdt. split; [|split; [exact Hdt|reflexivity]].
      intros Hnil. unfold empty in He. rewrite Hnil in He.
      destruct (columns d); discriminate.
    + right. split; [|simpl; eexists; reflexivity].
      right. apply List.Exists_exists.
      assert (Hin : In kv (dept_totals pd d)) by (rewrite Hdt; left; reflexivity).
      apply dept_totals_in in Hin. destruct Hin as [_ Hne].
      apply keyed_nonempty in Hne. destruct Hne as (r & Hr & Hk).
      exists r. split; [exact Hr|congruence].
Qed.

Lemma cols_totals s d :
  well_formed d ->
  exists rest, cols s d = "TOTAL" :: "TOTAL_FEM" :: "TOTAL_MASC" :: rest.
Proof.
  intros (_ & Hfem & Hmasc & Htot). rewrite cols_split. simpl.
  rewrite Hfem, Hmasc, Htot. simpl. eexists. reflexivity.
Qed.

(** On a frame that has the three total columns the correlation view is
    always a correlation of at least these three columns: the notice of
    line 212 is out of reach. *)
Theorem correlation_always_available (s : Dataset) (d : DataFrame) :
  well_formed d ->
  exists rest,
    cols s d = "TOTAL" :: "TOTAL_FEM" :: "TOTAL_MASC" :: rest /\
    tab_corr s d =
      Correlation (cols s d)
        (map (fun r => map (fun c => cell_at c r) (cols s d)) (rows d)) /\
    tab_corr s d <> Insufficient.
Proof.
  intros Hwf. destruct (cols_totals s d Hwf) as [rest Hc].
  exists rest. split; [exact Hc|].
  unfold tab_corr. rewrite Hc. simpl. split; [reflexivity|discriminate].
Qed.

Lemma correlation_always_available_witness :
  exists rest, cols example (df example) = "TOTAL" :: "TOTAL_FEM" :: "TOTAL_MASC" :: rest.
Proof.
  assert (Hwf : well_formed (df example)) by (repeat split).
  destruct (correlation_always_available example (df example) Hwf) as (rest & H & _).
  exists rest. exact H.
Defined.

Lemma content_ok pd s tab g d :
  well_formed d -> exists c, content pd s tab g d = Ok c.
Proof.
  intros (Hdep & Hfem & Hmasc & Htot). unfold content.
  destruct (bool_decide (tab = "tab_trend")).
  { unfold tab_trend. destruct (has_column d "anno_inf"); [|eexists; reflexivity].
    rewrite (column_ok d _ Hfem), (column_ok d _ Hmasc), (column_ok d _ Htot).
    eexists. reflexivity. }
  destruct (bool_decide (tab = "tab_dept")).
  { unfold tab_dept. rewrite (column_ok d _ Hdep), (column_ok d _ Htot).
    eexists. reflexivity. }
  destruct (bool_decide (tab = "tab_age")); eexists; reflexivity.
Qed.

Lemma filtered_view y deps d :
  has_column d "departamento" = true ->
  filtered y deps d =
    if year_raises y d then Raise (KeyError "anno_inf") else Ok (view y deps d).
Proof. apply filtered_spec. Qed.

(** On a data set that loaded, the callback raises in two cases only: a
    year is selected and the frame has no year column ([KeyError]), or the
    view is not empty and none of its rows has a department
    ([ValueError], from [idxmax]).  In every other case it returns: the
    notice alone on an empty data set, four cards and a figure otherwise. *)
Theorem callback_failures (parse : string -> option Qc) (pd : Library)
    (raw : DataFrame) (s : Dataset) (filtro_ano : option Z)
    (filtro_dep : option (list string)) (filtro_genero active_tab : string) :
  process parse raw = Ok s ->
  match update_dashboard pd s filtro_ano filtro_dep filtro_genero active_tab with
  | Ok (cards, c) =>
      (empty (df s) = true /\ cards = [] /\ c = NoData) \/
      (empty (df s) = false /\ year_raises filtro_ano (df s) = false /\
       length cards = 4%nat /\
       kpi_summary pd (view filtro_ano filtro_dep (df s)) = Ok
         {| tf := match nth_error cards 0 with Some (_, KInt z) => z | _ => 0 end;
            tm := match nth_error cards 1 with Some (_, KInt z) => z | _ => 0 end;
            ipg := match nth_error cards 2 with Some (_, KNum q) => q | _ => Q2Qc 0 end;
            top_dep := match nth_error cards 3 with
                       | Some (_, KText t) => t | _ => "" end |} /\
       content pd s active_tab filtro_genero (view filtro_ano filtro_dep (df s)) = Ok c)
  | Raise e =>
      empty (df s) = false /\
      ((e = KeyError "anno_inf" /\ year_raises filtro_ano (df s) = true) \/
       (e = ValueError /\ year_raises filtro_ano (df s) = false /\
        rows (view filtro_ano filtro_dep (df s)) <> [] /\
        Forall (fun r => departamento r = None)
               (rows (view filtro_ano filtro_dep (df s)))))
  end.
Proof.
  intros Hp. pose proof (process_well_formed parse raw s Hp) as Hwf.
  unfold update_dashboard. destruct (empty (df s)) eqn:He; [left; auto|].
  rewrite filtered_view by apply Hwf.
  destruct (year_raises filtro_ano (df s)) eqn:Hy; cbn [mbind result_bind];
    [split; [reflexivity|left; auto]|].
  assert (Hwv : well_formed (view filtro_ano filtro_dep (df s))) by exact Hwf.
  destruct (kpi_summary_cases pd _ Hwv) as [(Hne & Hall & Hk)|(_ & k & Hk)];
    rewrite Hk; cbn [mbind result_bind].
  - split; [reflexivity|]. right. auto.
  - destruct (content_ok pd s active_tab filtro_genero _ Hwv) as [c Hc].
    rewrite Hc. cbn [mbind result_bind]. right.
    split; [reflexivity|]. split; [reflexivity|]. split; [reflexivity|].
    split; [destruct k; reflexivity|reflexivity].
Qed.

Lemma callback_failures_witness :
  update_dashboard numpy example_no_dept None None "both" "tab_trend" = Raise ValueError.
Proof.
  assert (Hp : process parse_int raw_no_dept = Ok example_no_dept)
    by (vm_compute; reflexivity).
  pose proof (callback_failures parse_int numpy raw_no_dept example_no_dept
                None None "both" "tab_trend" Hp) as H.
  destruct (update_dashboard numpy example_no_dept None None "both" "tab_trend")
    as [[cards c]|e] eqn:Hu; [vm_compute in Hu; discriminate|].
  destruct H as (_ & [[_ Hy]|[-> _]]); [vm_compute in Hy; discriminate|reflexivity].
Defined.
